(** * SendDeploy: the profile store, the menu controller and the driver

    A shallow embedding of [src/SendDeploy/cli.py].  Python values that come
    out of the JSON file are kept dynamically typed ([pyval]); the profile
    list the driver and the menu work on is typed ([profile]).  Effects
    (terminal, configuration file, SSH/SCP) are recorded in a trace carried
    by an explicit world, threaded through a small state-and-exception
    monad.  The JSON codec, the transport and the local file system are
    parameters ([Env]).

    Not followed: failures of the terminal library, I/O errors other than a
    missing configuration file, a missing local file and a failed open for
    writing, input lines that are not UTF-8, and what Python does with
    stored data that is not a list of profiles and an integer. *)

From Stdlib Require Import ZArith List String Ascii Bool Lia DecimalString.
Import ListNotations.
Local Open Scope string_scope.
Local Open Scope Z_scope.
#[local] Set Warnings "-register-all".

(** ** Python values and exceptions *)

(** What [json.load] can return.  A float is kept as its binary64 bit
    pattern; the program never computes with one. *)
Inductive pyval : Type :=
| PNone
| PBool (b : bool)
| PInt (n : Z)
| PFloat (bits : Z)
| PStr (s : string)
| PList (items : list pyval)
| PDict (items : list (string * pyval)).

(** The exceptions the program raises or handles.  [KeyboardInterrupt] and
    [SystemExit] derive from [BaseException] only, so [except Exception]
    does not catch them. *)
Inductive exn : Type :=
| FileNotFoundError
| JSONDecodeError
| TypeError
| KeyError (key : string)
| IndexError
| AuthenticationException
| SSHException (msg : string)
| OtherException (msg : string)
| KeyboardInterrupt
| SystemExit (code : Z).

Definition is_Exception (e : exn) : bool :=
  match e with
  | KeyboardInterrupt | SystemExit _ => false
  | _ => true
  end.

(** [str(e)] in the handlers that print the exception.  The exceptions of
    the transport and of the file system carry their message; the text of
    the others is not followed. *)
Definition exn_str (e : exn) : string :=
  match e with
  | SSHException msg | OtherException msg => msg
  | KeyError key => "'" ++ key ++ "'"
  | _ => EmptyString
  end.

(** Result of a pure Python expression that may raise. *)
Inductive result (A : Type) : Type :=
| Ok (a : A)
| Err (e : exn).
Arguments Ok {A} a.
Arguments Err {A} e.

(** [needle in hay] on two [str]: substring test. *)
Fixpoint str_contains (needle hay : string) : bool :=
  String.prefix needle hay ||
  match hay with
  | EmptyString => false
  | String _ rest => str_contains needle rest
  end.

Definition is_str (key : string) (v : pyval) : bool :=
  match v with
  | PStr s => String.eqb s key
  | _ => false
  end.

Fixpoint assoc_get (key : string) (d : list (string * pyval)) : option pyval :=
  match d with
  | [] => None
  | (k, v) :: rest => if String.eqb k key then Some v else assoc_get key rest
  end.

(** [d[key] = v] on a dict: replaces the value in place, or appends the
    key at the end (insertion order). *)
Fixpoint assoc_set (key : string) (v : pyval) (d : list (string * pyval))
  : list (string * pyval) :=
  match d with
  | [] => [(key, v)]
  | (k, v0) :: rest =>
      if String.eqb k key then (k, v) :: rest
      else (k, v0) :: assoc_set key v rest
  end.

(** [key in data] for a [str] key: membership among the keys of a dict,
    among the elements of a list, substring of a string; the other values
    are not containers. *)
Definition py_contains (key : string) (data : pyval) : result bool :=
  match data with
  | PDict d => Ok (match assoc_get key d with Some _ => true | None => false end)
  | PList l => Ok (existsb (is_str key) l)
  | PStr s => Ok (str_contains key s)
  | PNone | PBool _ | PInt _ | PFloat _ => Err TypeError
  end.

(** [data[key] = v] for a [str] key: only a dict accepts it. *)
Definition py_setitem (data : pyval) (key : string) (v : pyval) : result pyval :=
  match data with
  | PDict d => Ok (PDict (assoc_set key v d))
  | _ => Err TypeError
  end.

(** [data[key]] for a [str] key. *)
Definition py_getitem (data : pyval) (key : string) : result pyval :=
  match data with
  | PDict d =>
      match assoc_get key d with
      | Some v => Ok v
      | None => Err (KeyError key)
      end
  | _ => Err TypeError
  end.

(** ** Profiles *)

(** One connection entry, the dict built by [add_new_entry]. *)
Record profile : Type := mkProfile {
  ssh_ip : string;
  ssh_user : string;
  ssh_password : string;
  remote_path : string
}.

Definition profile_to_py (p : profile) : pyval :=
  PDict [("ssh_ip", PStr (ssh_ip p)); ("ssh_user", PStr (ssh_user p));
         ("ssh_password", PStr (ssh_password p));
         ("remote_path", PStr (remote_path p))].

Definition entries_to_py (entries : list profile) : pyval :=
  PList (map profile_to_py entries).

(** The typed reading of a decoded entry: exactly the dict [add_new_entry]
    builds, keys in its order. *)
Definition profile_of_py (v : pyval) : option profile :=
  match v with
  | PDict [(k1, PStr a); (k2, PStr b); (k3, PStr c); (k4, PStr d)] =>
      if String.eqb k1 "ssh_ip" && String.eqb k2 "ssh_user" &&
         String.eqb k3 "ssh_password" && String.eqb k4 "remote_path"
      then Some (mkProfile a b c d) else None
  | _ => None
  end.

Fixpoint profiles_of_py (l : list pyval) : option (list profile) :=
  match l with
  | [] => Some []
  | v :: rest =>
      match profile_of_py v, profiles_of_py rest with
      | Some p, Some ps => Some (p :: ps)
      | _, _ => None
      end
  end.

Definition entries_of_py (v : pyval) : option (list profile) :=
  match v with
  | PList l => profiles_of_py l
  | _ => None
  end.

(** [len(entries)] *)
Definition len {A : Type} (l : list A) : Z := Z.of_nat (List.length l).

(** [entries[idx]] on a list: negative indices count from the end. *)
Definition py_list_index {A : Type} (l : list A) (idx : Z) : result A :=
  let i := if idx <? 0 then idx + len l else idx in
  if (0 <=? i) && (i <? len l) then
    match nth_error l (Z.to_nat i) with
    | Some a => Ok a
    | None => Err IndexError
    end
  else Err IndexError.

(** ** The world: effects, inputs and the environment *)

Inductive attr : Type := A_NORMAL | A_BOLD | A_REVERSE.

(** Observable effects, in program order. *)
Inductive event : Type :=
| Print (s : string)                       (* print(s) *)
| TracebackPrint                           (* traceback.print_exc() *)
| CursesRaw                                (* curses.raw() *)
| CursSet (visibility : Z)                 (* curses.curs_set(v) *)
| CursesEcho
| CursesNoecho
| CursesEndwin
| ScrClear                                 (* stdscr.clear() *)
| ScrAddstr (y x : Z) (s : string) (a : attr)
| ScrRefresh
| ScrKeypad (on : bool)
| ConfigWrite (text : string)              (* open(CONFIG_PATH, 'w') and json.dump *)
| SshConnect (server user password : string) (timeout : Z)
| SshGetTransport
| GetSize (filename : string)              (* os.path.getsize(filename) *)
| ProgressBarOpen (total : Z) (desc : string)
| ScpOpen
| ScpPut (filename remote : string)
| ProgressBarDone (total : Z)              (* n = total; refresh(); close() *)
| TqdmWrite (s : string)
| ScpClose
| SshClose.

Inductive connect_result : Type :=
| Connected
| ConnectRaises (e : exn).

Inductive put_result : Type :=
| PutOk
| PutRaises (e : exn).

(** What the program does not implement itself: the location of the
    configuration file, the JSON codec, the SSH/SCP transport and the local
    file system seen by [os.path.getsize]. *)
Record Env : Type := mkEnv {
  CONFIG_PATH : string;
  json_loads : string -> option pyval;     (* None: JSONDecodeError *)
  json_dumps : pyval -> string;            (* json.dump(data, f, indent=4) *)
  ssh_connect : string -> string -> string -> connect_result;
  getsize : string -> option Z;            (* None: FileNotFoundError *)
  scp_put : string -> string -> put_result
}.

(** The mutable part: the configuration file, the pending terminal input
    and the effects performed so far (oldest first). *)
Record World : Type := mkWorld {
  config_file : option string;             (* None: the file does not exist *)
  config_write_error : option string;      (* Some msg: opening for writing raises *)
  keys : list Z;                           (* what stdscr.getch() will return *)
  lines : list string;                     (* what stdscr.getstr() will return *)
  trace : list event
}.

Definition emit_in (ev : event) (w : World) : World :=
  mkWorld (config_file w) (config_write_error w) (keys w) (lines w)
          (trace w ++ [ev]).

Definition emits_in (evs : list event) (w : World) : World :=
  mkWorld (config_file w) (config_write_error w) (keys w) (lines w)
          (trace w ++ evs).

Definition set_keys (ks : list Z) (w : World) : World :=
  mkWorld (config_file w) (config_write_error w) ks (lines w) (trace w).

Definition set_lines (ls : list string) (w : World) : World :=
  mkWorld (config_file w) (config_write_error w) (keys w) ls (trace w).

Definition set_config_file (text : string) (w : World) : World :=
  mkWorld (Some text) (config_write_error w) (keys w) (lines w) (trace w).

(** ** The monad *)

(** Why a run stops without returning or raising. *)
Inductive halt : Type :=
| Blocked        (* waiting for terminal input that never comes *)
| IllTyped       (* the stored data is not a profile list and an integer *)
| OutOfFuel.     (* the bound of the driver loop was reached *)

Inductive outcome (A : Type) : Type :=
| Ret (a : A)
| Raise (e : exn)
| Halt (h : halt).
Arguments Ret {A} a.
Arguments Raise {A} e.
Arguments Halt {A} h.

Definition M (A : Type) : Type := World -> outcome A * World.

Definition ret {A : Type} (a : A) : M A := fun w => (Ret a, w).

Definition bind {A B : Type} (m : M A) (k : A -> M B) : M B :=
  fun w =>
    match m w with
    | (Ret a, w') => k a w'
    | (Raise e, w') => (Raise e, w')
    | (Halt h, w') => (Halt h, w')
    end.

Notation "x <- m ;; k" := (bind m (fun x => k))
  (at level 61, m at next level, right associativity).
Notation "m ;; k" := (bind m (fun _ => k))
  (at level 61, right associativity).

Definition raise {A : Type} (e : exn) : M A := fun w => (Raise e, w).

Definition halt_with {A : Type} (h : halt) : M A := fun w => (Halt h, w).

Definition lift {A : Type} (r : result A) : M A :=
  match r with
  | Ok a => ret a
  | Err e => raise e
  end.

Definition emit (ev : event) : M unit := fun w => (Ret tt, emit_in ev w).

Definition emits (evs : list event) : M unit := fun w => (Ret tt, emits_in evs w).

Definition print (s : string) : M unit := emit (Print s).

(** [try: m  except ...: handler e], where [handler e = None] means that no
    clause matches [e]. *)
Definition try_except {A : Type} (m : M A) (handler : exn -> option (M A)) : M A :=
  fun w =>
    match m w with
    | (Raise e, w') =>
        match handler e with
        | Some h => h w'
        | None => (Raise e, w')
        end
    | r => r
    end.

(** [try: m  finally: f] *)
Definition try_finally {A : Type} (m : M A) (f : M unit) : M A :=
  fun w =>
    match m w with
    | (Ret a, w') => (f ;; ret a) w'
    | (Raise e, w') => (f ;; raise e) w'
    | (Halt h, w') => (Halt h, w')
    end.

(** [stdscr.getch()]: blocks until a key is available. *)
Definition getch : M Z :=
  fun w =>
    match keys w with
    | [] => (Halt Blocked, w)
    | k :: ks => (Ret k, set_keys ks w)
    end.

(** [stdscr.getstr(y, x, n).decode('utf-8')]: one line of input. *)
Definition getstr : M string :=
  fun w =>
    match lines w with
    | [] => (Halt Blocked, w)
    | l :: ls => (Ret l, set_lines ls w)
    end.

(** ** Profile store *)

(** [remove_entry(entries, idx)]: [del entries[idx]] when the index is in
    range, the list as it is otherwise. *)
Definition remove_entry {A : Type} (entries : list A) (idx : Z) : list A :=
  if (0 <=? idx) && (idx <? len entries) then
    firstn (Z.to_nat idx) entries ++ skipn (S (Z.to_nat idx)) entries
  else entries.

(** [{"entries": [], "last_selected_idx": -1}] *)
Definition default_data : pyval :=
  PDict [("entries", PList []); ("last_selected_idx", PInt (-1))].

(** [{"entries": entries, "last_selected_idx": last_selected_idx}] *)
Definition store_to_py (entries : list profile) (last_selected_idx : Z) : pyval :=
  PDict [("entries", entries_to_py entries);
         ("last_selected_idx", PInt last_selected_idx)].

(** [f"Error: The file '{filename}' was not found."] *)
Definition not_found_message (filename : string) : string :=
  "Error: The file '" ++ filename ++ "' was not found.".

(** [f"Copying file {args.filename} to: IP: ..., User: ..., Remote path: ..."] *)
Definition copying_message (filename : string) (entry : profile) : string :=
  "Copying file " ++ filename ++ " to: IP: " ++ ssh_ip entry
  ++ ", User: " ++ ssh_user entry ++ ", Remote path: " ++ remote_path entry.

Section StoreAndTransfer.

Variable env : Env.

(** [open(CONFIG_PATH, 'r')] and reading the text. *)
Definition read_config : M string :=
  fun w =>
    match config_file w with
    | Some text => (Ret text, w)
    | None => (Raise FileNotFoundError, w)
    end.

(** [json.load(f)] *)
Definition json_load (text : string) : M pyval :=
  match json_loads env text with
  | Some data => ret data
  | None => raise JSONDecodeError
  end.

Definition load_entries : M pyval :=
  try_except
    (text <- read_config ;;
     data <- json_load text ;;
     has_entries <- lift (py_contains "entries" data) ;;
     data <- (if negb has_entries
              then lift (py_setitem data "entries" (PList []))
              else ret data) ;;
     has_idx <- lift (py_contains "last_selected_idx" data) ;;
     data <- (if negb has_idx
              then lift (py_setitem data "last_selected_idx" (PInt (-1)))
              else ret data) ;;
     ret data)
    (fun e =>
       match e with
       | FileNotFoundError =>
           Some (print ("Warning: Configuration file not found at "
                        ++ CONFIG_PATH env ++ ". Creating a new one.") ;;
                 ret default_data)
       | JSONDecodeError =>
           Some (print ("Error: Configuration file at " ++ CONFIG_PATH env
                        ++ " is corrupted.  Overwriting with default settings.") ;;
                 ret default_data)
       | _ => None
       end).

(** [open(CONFIG_PATH, 'w')] followed by [json.dump(data, f, indent=4)]. *)
Definition write_config (data : pyval) : M unit :=
  fun w =>
    match config_write_error w with
    | Some msg => (Raise (OtherException msg), w)
    | None =>
        let text := json_dumps env data in
        (Ret tt, emit_in (ConfigWrite text) (set_config_file text w))
    end.

Definition save_entries (entries : list profile) (last_selected_idx : Z) : M unit :=
  let data := store_to_py entries last_selected_idx in
  try_except
    (write_config data)
    (fun e =>
       if is_Exception e
       then Some (print ("Error saving to configuration file: " ++ exn_str e))
       else None).

Definition clear_entries : M unit :=
  save_entries [] (-1) ;;
  print "All connections cleared.".

(** ** Transfer client *)

Inductive ssh_client : Type := SSHClient (server : string).

Definition create_ssh_client (server user password : string)
  : M (option ssh_client) :=
  try_except
    (emit (SshConnect server user password 10) ;;
     match ssh_connect env server user password with
     | Connected => ret (Some (SSHClient server))
     | ConnectRaises e => raise e
     end)
    (fun e =>
       match e with
       | AuthenticationException =>
           Some (print "Authentication failed, please verify your SSH credentials." ;;
                 ret None)
       | SSHException msg =>
           Some (print ("SSH connection error: " ++ msg) ;; ret None)
       | _ =>
           if is_Exception e
           then Some (print ("An error occurred while connecting to " ++ server
                             ++ ": " ++ exn_str e) ;;
                      ret None)
           else None
       end).

(** [os.path.getsize(filename)] *)
Definition file_size (filename : string) : M Z :=
  emit (GetSize filename) ;;
  match getsize env filename with
  | Some n => ret n
  | None => raise FileNotFoundError
  end.

(** [scp_client.put(filename, remote_path)] *)
Definition put (filename remote : string) : M unit :=
  emit (ScpPut filename remote) ;;
  match scp_put env filename remote with
  | PutOk => ret tt
  | PutRaises e => raise e
  end.

Definition send_file (filename ip user password remote : string) : M unit :=
  client <- create_ssh_client ip user password ;;
  match client with
  | None => ret tt
  | Some _ =>
      try_finally
        (try_except
           (emit SshGetTransport ;;
            size <- file_size filename ;;
            emit (ProgressBarOpen size filename) ;;
            emit ScpOpen ;;
            try_finally
              (put filename remote ;;
               emit (ProgressBarDone size) ;;
               emit (TqdmWrite ("File '" ++ filename ++ "' successfully uploaded to "
                                ++ remote ++ " on " ++ ip)))
              (emit ScpClose))
           (fun e =>
              match e with
              | FileNotFoundError =>
                  Some (print (not_found_message filename))
              | AuthenticationException =>
                  Some (print "Authentication failed, please verify your SSH credentials.")
              | _ =>
                  if is_Exception e
                  then Some (print ("An error occurred: " ++ exn_str e) ;;
                             emit TracebackPrint)
                  else None
              end))
        (emit SshClose)
  end.

End StoreAndTransfer.

(** ** Menu controller *)

(** [ord(c)] *)
Definition ord (c : ascii) : Z := Z.of_N (N_of_ascii c).

(** [curses.KEY_UP] and [curses.KEY_DOWN] (0o403 and 0o402). *)
Definition KEY_UP : Z := 259.
Definition KEY_DOWN : Z := 258.

(** What one call of [interactive_select] returns: an index (Enter), [None]
    ('n'), ['clear'] ('a'), [('remove', index)] ('c') or ['quit'] ('q'). *)
Inductive action : Type :=
| Selected (idx : Z)
| AddRequested
| ClearRequested
| RemoveRequested (idx : Z)
| Quit.

Definition entry_line (entry : profile) : string :=
  ssh_ip entry ++ " - " ++ ssh_user entry ++ " - " ++ remote_path entry.

(** The [for idx, entry in enumerate(entries)] loop of [display_menu]. *)
Fixpoint menu_rows (idx selected_idx : Z) (entries : list profile) : list event :=
  match entries with
  | [] => []
  | entry :: rest =>
      (if idx =? selected_idx
       then ScrAddstr (2 + idx) 2 ("> " ++ entry_line entry) A_REVERSE
       else ScrAddstr (2 + idx) 2 ("  " ++ entry_line entry) A_NORMAL)
      :: menu_rows (idx + 1) selected_idx rest
  end.

(** [display_menu(selected_idx)]: one full redraw of the screen. *)
Definition display_menu (entries : list profile) (selected_idx : Z) : list event :=
  [ScrClear;
   match entries with
   | [] => ScrAddstr 0 0 "No connections found. Add a new connection" A_BOLD
   | _ => ScrAddstr 0 0
            "Select a connection to copy file (Use arrow keys to navigate, Enter to select):"
            A_BOLD
   end]
  ++ menu_rows 0 selected_idx entries
  ++ [ScrAddstr (len entries + 2) 0 "Press 'n' to add a new connection." A_BOLD;
      ScrAddstr (len entries + 3) 0 "Press 'a' to clear all connections." A_BOLD;
      ScrAddstr (len entries + 4) 0 "Press 'c' to remove the selected connection." A_BOLD;
      ScrAddstr (len entries + 5) 0 "Press 'q' to quit." A_BOLD;
      ScrRefresh].

(** The effect of one key on the loop of [interactive_select]. *)
Inductive key_effect : Type :=
| Stay (selected_idx : Z)      (* falls through to the redraw, loop again *)
| Return (a : action)          (* return ... *)
| Interrupt.                   (* raise KeyboardInterrupt *)

(** The [if]/[elif] chain on [key]. *)
Definition on_key (entries : list profile) (selected_idx key : Z) : key_effect :=
  if key =? KEY_UP then
    Stay (if selected_idx >? 0 then selected_idx - 1 else selected_idx)
  else if key =? KEY_DOWN then
    Stay (if selected_idx <? len entries - 1 then selected_idx + 1 else selected_idx)
  else if key =? 13 then Return (Selected selected_idx)
  else if key =? ord "n" then Return AddRequested
  else if key =? ord "a" then Return ClearRequested
  else if key =? ord "c" then Return (RemoveRequested selected_idx)
  else if key =? ord "q" then Return Quit
  else if key =? 3 then Interrupt
  else Stay selected_idx.

(** One iteration of the [while True] loop once [getch] has returned [key]:
    the effects it performs on the screen and how it ends. *)
Definition menu_step (entries : list profile) (selected_idx key : Z)
  : list event * key_effect :=
  match on_key entries selected_idx key with
  | Stay selected_idx' => (display_menu entries selected_idx', Stay selected_idx')
  | Return a => ([], Return a)
  | Interrupt => ([], Interrupt)
  end.

(** How the loop ends on a given supply of keys. *)
Inductive menu_end : Type :=
| Returned (a : action)
| Interrupted
| Waiting.                     (* the keys ran out: [getch] blocks *)

(** The [while True] loop, on the pending keys: the screen effects, how it
    ends, and the keys left unread. *)
Fixpoint menu_loop (entries : list profile) (selected_idx : Z) (ks : list Z)
  : list event * menu_end * list Z :=
  match ks with
  | [] => ([], Waiting, [])
  | key :: rest =>
      match menu_step entries selected_idx key with
      | (evs, Stay selected_idx') =>
          let '(evs', e, rest') := menu_loop entries selected_idx' rest in
          ((evs ++ evs')%list, e, rest')
      | (evs, Return a) => (evs, Returned a, rest)
      | (evs, Interrupt) => (evs, Interrupted, rest)
      end
  end.

(** [interactive_select(stdscr, entries, last_selected_idx)].  The handler
    of the loop ([except Exception]) is for failures of the terminal
    library, which the world does not produce; [KeyboardInterrupt] is not an
    [Exception] and leaves the function. *)
Definition interactive_select (entries : list profile) (last_selected_idx : Z)
  : M action :=
  emits (display_menu entries last_selected_idx) ;;
  emit (ScrKeypad true) ;;
  fun w =>
    let '(evs, e, rest) := menu_loop entries last_selected_idx (keys w) in
    let w' := emits_in evs (set_keys rest w) in
    match e with
    | Returned a => (Ret a, w')
    | Interrupted => (Raise KeyboardInterrupt, w')
    | Waiting => (Halt Blocked, w')
    end.

(** The keys the [if]/[elif] chain tests for. *)
Definition recognized_key (key : Z) : bool :=
  (key =? KEY_UP) || (key =? KEY_DOWN) || (key =? 13) || (key =? ord "n") ||
  (key =? ord "a") || (key =? ord "c") || (key =? ord "q") || (key =? 3).

(** The cursors the loop can hold after some keys, from [c0]. *)
Inductive browsing (entries : list profile) (c0 : Z) : Z -> Prop :=
| browsing_start : browsing entries c0 c0
| browsing_key (c key c' : Z) :
    browsing entries c0 c ->
    on_key entries c key = Stay c' ->
    browsing entries c0 c'.

(** ** Adding a profile *)

(** Text is kept as its UTF-8 bytes.  [str.strip()] removes, at both
    ends, the characters Python counts as whitespace: the ASCII ones and,
    beyond ASCII, U+0085, U+00A0, U+1680, U+2000 to U+200A, U+2028, U+2029,
    U+202F, U+205F and U+3000. *)

(** The ASCII characters [str.strip()] removes. *)
Definition is_space (c : ascii) : bool :=
  let n := N_of_ascii c in
  ((9 <=? n) && (n <=? 13) || (28 <=? n) && (n <=? 32))%N.

(** The two-byte characters it removes: U+0085 and U+00A0. *)
Definition is_space2 (a b : ascii) : bool :=
  let a := N_of_ascii a in
  let b := N_of_ascii b in
  ((a =? 194) && ((b =? 133) || (b =? 160)))%N.

(** The three-byte characters it removes: U+1680, U+2000 to U+200A, U+2028,
    U+2029, U+202F, U+205F and U+3000. *)
Definition is_space3 (a b c : ascii) : bool :=
  let a := N_of_ascii a in
  let b := N_of_ascii b in
  let c := N_of_ascii c in
  ((a =? 225) && (b =? 154) && (c =? 128)
   || (a =? 226) && (b =? 128)
      && ((128 <=? c) && (c <=? 138) || (c =? 168) || (c =? 169) || (c =? 175))
   || (a =? 226) && (b =? 129) && (c =? 159)
   || (a =? 227) && (b =? 128) && (c =? 128))%N.

Section Strip.

(** Which one, two and three bytes at the front are to be removed. *)
Variable w1 : ascii -> bool.
Variable w2 : ascii -> ascii -> bool.
Variable w3 : ascii -> ascii -> ascii -> bool.

Fixpoint strip_front (l : list ascii) : list ascii :=
  match l with
  | [] => []
  | a :: r1 =>
      if w1 a then strip_front r1
      else
        match r1 with
        | [] => l
        | b :: r2 =>
            if w2 a b then strip_front r2
            else
              match r2 with
              | [] => l
              | c :: r3 => if w3 a b c then strip_front r3 else l
              end
        end
  end.

(** Nothing to remove at the front. *)
Definition clean_front (l : list ascii) : Prop :=
  match l with
  | [] => True
  | a :: r1 =>
      w1 a = false /\
      match r1 with
      | [] => True
      | b :: r2 =>
          w2 a b = false /\
          match r2 with
          | [] => True
          | c :: _ => w3 a b c = false
          end
      end
  end.

End Strip.

(** [s.lstrip()], on the bytes. *)
Definition lstrip : list ascii -> list ascii :=
  strip_front is_space is_space2 is_space3.

(** [s.rstrip()], on the bytes in reverse order; in UTF-8 the first byte of
    a character is never a continuation byte, so the last bytes of the text
    are those of its last character. *)
Definition rstrip_rev : list ascii -> list ascii :=
  strip_front is_space (fun b a => is_space2 a b) (fun c b a => is_space3 a b c).

(** [s.strip()] *)
Definition py_strip (s : string) : string :=
  string_of_list_ascii
    (rev (rstrip_rev (rev (lstrip (list_ascii_of_string s))))).

(** [add_new_entry(stdscr)]: four prompts in a fixed order, the password
    read with echo off. *)
Definition add_new_entry : M profile :=
  emit ScrClear ;;
  emit (ScrAddstr 0 0 "Enter new ssh connection (Format: IP, User, Password, Remote Path):" A_BOLD) ;;
  emit ScrRefresh ;;
  emit (ScrAddstr 2 0 "Enter SSH server IP address: " A_NORMAL) ;;
  emit CursesEcho ;;
  ip <- getstr ;;
  emit (ScrAddstr 5 0 "Enter SSH username: " A_NORMAL) ;;
  user <- getstr ;;
  emit (ScrAddstr 8 0 "Enter SSH password: " A_NORMAL) ;;
  emit CursesNoecho ;;
  password <- getstr ;;
  emit (ScrAddstr 11 0 "Enter remote path to upload the file (e.g., /remote/path/): " A_NORMAL) ;;
  emit CursesEcho ;;
  remote <- getstr ;;
  ret (mkProfile (py_strip ip) (py_strip user) (py_strip password) (py_strip remote)).

(** ** Application driver *)

(** [last_selected_idx] after a removal: [-1] when nothing is left,
    [min(last_selected_idx, len(entries) - 1)] otherwise. *)
Definition reclamp (entries : list profile) (last_selected_idx : Z) : Z :=
  match entries with
  | [] => -1
  | _ => Z.min last_selected_idx (len entries - 1)
  end.

Section Driver.

Variable env : Env.

(** The print of the chosen profile and the transfer to it; the f-string
    reads [entries[last_selected_idx]] first. *)
Definition copy_to (filename : string) (entries : list profile)
  (last_selected_idx : Z) : M unit :=
  entry <- lift (py_list_index entries last_selected_idx) ;;
  print (copying_message filename entry) ;;
  send_file env filename (ssh_ip entry) (ssh_user entry) (ssh_password entry)
            (remote_path entry).

(** The branch of ['clear']; the store is then empty. *)
Definition application_clear : M (list profile * Z) :=
  clear_entries env ;;
  emit ScrClear ;;
  emit (ScrAddstr 0 0 "All connections have been cleared." A_NORMAL) ;;
  emit ScrRefresh ;;
  _ <- getch ;;
  save_entries env [] (-1) ;;
  ret ([], -1).

(** The branch of [('remove', idx)]. *)
Definition application_remove (entries : list profile) (last_selected_idx idx : Z)
  : M (list profile * Z) :=
  let entries := remove_entry entries idx in
  let last_selected_idx := reclamp entries last_selected_idx in
  emit ScrClear ;;
  emit (ScrAddstr 0 0 "Connection has been removed." A_NORMAL) ;;
  emit ScrRefresh ;;
  _ <- getch ;;
  save_entries env entries last_selected_idx ;;
  ret (entries, last_selected_idx).

(** The branch of [None]: the new profile is appended and selected. *)
Definition application_add (entries : list profile) : M (list profile * Z) :=
  new_entry <- add_new_entry ;;
  let entries := (entries ++ [new_entry])%list in
  let last_selected_idx := len entries - 1 in
  save_entries env entries last_selected_idx ;;
  ret (entries, last_selected_idx).

(** The last branch: an index was chosen. *)
Definition application_select (filename : string) (entries : list profile)
  (idx : Z) : M unit :=
  save_entries env entries idx ;;
  emit CursesEndwin ;;
  copy_to filename entries idx.

(** The [while True] loop of [application]; every turn reads at least one
    key, and [fuel] bounds the number of turns. *)
Fixpoint application_loop (fuel : nat) (filename : string)
  (entries : list profile) (last_selected_idx : Z) : M unit :=
  match fuel with
  | O => halt_with OutOfFuel
  | S fuel' =>
      a <- interactive_select entries last_selected_idx ;;
      match a with
      | Quit => save_entries env entries last_selected_idx
      | ClearRequested =>
          st <- application_clear ;;
          application_loop fuel' filename (fst st) (snd st)
      | RemoveRequested idx =>
          st <- application_remove entries last_selected_idx idx ;;
          application_loop fuel' filename (fst st) (snd st)
      | AddRequested =>
          st <- application_add entries ;;
          application_loop fuel' filename (fst st) (snd st)
      | Selected idx => application_select filename entries idx
      end
  end.

(** The [--quiet] branch. *)
Definition application_quiet (filename : string) (entries : list profile)
  (last_selected_idx : Z) : M unit :=
  emit CursesEndwin ;;
  match entries with
  | [] => print "No connections found. Add a new connection."
  | _ => copy_to filename entries last_selected_idx
  end.

(** [entries = data["entries"]] and
    [last_selected_idx = data["last_selected_idx"]], read as a profile list
    and an integer; what Python does with other shapes is not followed
    ([IllTyped]). *)
Definition read_store (data : pyval) : M (list profile * Z) :=
  entries <- lift (py_getitem data "entries") ;;
  last_selected_idx <- lift (py_getitem data "last_selected_idx") ;;
  match entries_of_py entries, last_selected_idx with
  | Some entries, PInt last_selected_idx => ret (entries, last_selected_idx)
  | _, _ => halt_with IllTyped
  end.

Definition load_store : M (list profile * Z) :=
  data <- load_entries env ;;
  read_store data.

(** [application(stdscr)] once the command line is parsed into [quiet] and
    [filename]. *)
Definition application (quiet : bool) (filename : string) : M unit :=
  emit CursesRaw ;;
  emit (CursSet 0) ;;
  emit ScrClear ;;
  st <- load_store ;;
  let entries := fst st in
  let last_selected_idx := if snd st =? -1 then 0 else snd st in
  if quiet then application_quiet filename entries last_selected_idx
  else fun w =>
         application_loop (S (List.length (keys w))) filename entries
                          last_selected_idx w.

End Driver.

(** ** A sample environment *)

(** A codec for the part of JSON the program writes (objects, arrays,
    strings of printable ASCII, integers, [true], [false], [null]), laid out
    as [json.dump(..., indent=4)] does, and a transport that always
    succeeds.  They instantiate [Env] at concrete inputs; numbers with a
    fraction or an exponent and [\u] escapes are outside the sample. *)
Module Sample.

Definition dquote : ascii := "034"%char.
Definition backslash : ascii := "092"%char.

Definition str1 (c : ascii) : string := String c EmptyString.

Fixpoint escape (s : string) : string :=
  match s with
  | EmptyString => EmptyString
  | String c rest =>
      if Ascii.eqb c dquote || Ascii.eqb c backslash
      then String backslash (String c (escape rest))
      else String c (escape rest)
  end.

Definition quoted (s : string) : string :=
  str1 dquote ++ escape s ++ str1 dquote.

Definition newline : string := str1 "010"%char.

Definition indent (level : nat) : string :=
  string_of_list_ascii (repeat " "%char (4 * level)).

Definition dump_int (n : Z) : string :=
  DecimalString.NilZero.string_of_int (Z.to_int n).

Fixpoint dump (level : nat) (v : pyval) : string :=
  match v with
  | PNone => "null"
  | PBool true => "true"
  | PBool false => "false"
  | PInt n => dump_int n
  | PFloat _ => "NaN"
  | PStr s => quoted s
  | PList [] => "[]"
  | PList (x :: xs) =>
      "[" ++ newline ++ indent (S level) ++ dump (S level) x
      ++ (fix items (l : list pyval) : string :=
            match l with
            | [] => EmptyString
            | y :: ys =>
                "," ++ newline ++ indent (S level) ++ dump (S level) y ++ items ys
            end) xs
      ++ newline ++ indent level ++ "]"
  | PDict [] => "{}"
  | PDict ((k, x) :: xs) =>
      "{" ++ newline ++ indent (S level) ++ quoted k ++ ": " ++ dump (S level) x
      ++ (fix members (l : list (string * pyval)) : string :=
            match l with
            | [] => EmptyString
            | (k', y) :: ys =>
                "," ++ newline ++ indent (S level) ++ quoted k' ++ ": "
                ++ dump (S level) y ++ members ys
            end) xs
      ++ newline ++ indent level ++ "}"
  end.

Definition dumps (v : pyval) : string := dump 0 v.

Definition is_ws (c : ascii) : bool :=
  Ascii.eqb c " "%char || Ascii.eqb c "009"%char || Ascii.eqb c "010"%char
  || Ascii.eqb c "013"%char.

Fixpoint skip_ws (s : string) : string :=
  match s with
  | String c rest => if is_ws c then skip_ws rest else s
  | EmptyString => EmptyString
  end.

Definition unescape (c : ascii) : option ascii :=
  if Ascii.eqb c dquote then Some dquote
  else if Ascii.eqb c backslash then Some backslash
  else if Ascii.eqb c "/"%char then Some "/"%char
  else if Ascii.eqb c "n"%char then Some "010"%char
  else if Ascii.eqb c "t"%char then Some "009"%char
  else if Ascii.eqb c "r"%char then Some "013"%char
  else if Ascii.eqb c "b"%char then Some "008"%char
  else if Ascii.eqb c "f"%char then Some "012"%char
  else None.

(** The characters of a string literal, after its opening quote. *)
Fixpoint parse_chars (s : string) : option (string * string) :=
  match s with
  | EmptyString => None
  | String c rest =>
      if Ascii.eqb c dquote then Some (EmptyString, rest)
      else if Ascii.eqb c backslash then
        match rest with
        | String e rest' =>
            match unescape e, parse_chars rest' with
            | Some c', Some (t, r) => Some (String c' t, r)
            | _, _ => None
            end
        | EmptyString => None
        end
      else if (N_of_ascii c <? 32)%N then None
      else
        match parse_chars rest with
        | Some (t, r) => Some (String c t, r)
        | None => None
        end
  end.

Definition digit (c : ascii) : option Z :=
  let n := N_of_ascii c in
  if ((48 <=? n) && (n <=? 57))%N then Some (Z.of_N n - 48) else None.

Fixpoint parse_digits (acc : Z) (s : string) : Z * string :=
  match s with
  | String c rest =>
      match digit c with
      | Some d => parse_digits (10 * acc + d) rest
      | None => (acc, s)
      end
  | EmptyString => (acc, s)
  end.

(** An integer literal without its sign; a fraction or an exponent after it
    is refused. *)
Definition parse_nat (s : string) : option (Z * string) :=
  match s with
  | String c rest =>
      match digit c with
      | Some d =>
          let '(n, r) := if d =? 0 then (0, rest) else parse_digits d rest in
          match r with
          | String c' _ =>
              if Ascii.eqb c' "."%char || Ascii.eqb c' "e"%char
                 || Ascii.eqb c' "E"%char
              then None else Some (n, r)
          | EmptyString => Some (n, r)
          end
      | None => None
      end
  | EmptyString => None
  end.

Definition strip_prefix (p s : string) : option string :=
  if String.prefix p s
  then Some (String.substring (String.length p)
                              (String.length s - String.length p) s)
  else None.

Fixpoint parse_value (fuel : nat) (s : string) : option (pyval * string) :=
  match fuel with
  | O => None
  | S fuel' =>
      match skip_ws s with
      | EmptyString => None
      | String c rest as s' =>
          if Ascii.eqb c dquote then
            match parse_chars rest with
            | Some (t, r) => Some (PStr t, r)
            | None => None
            end
          else if Ascii.eqb c "["%char then
            match skip_ws rest with
            | String "]"%char r => Some (PList [], r)
            | _ =>
                match parse_elems fuel' rest with
                | Some (l, r) => Some (PList l, r)
                | None => None
                end
            end
          else if Ascii.eqb c "{"%char then
            match skip_ws rest with
            | String "}"%char r => Some (PDict [], r)
            | _ =>
                match parse_members fuel' [] rest with
                | Some (d, r) => Some (PDict d, r)
                | None => None
                end
            end
          else if Ascii.eqb c "-"%char then
            match parse_nat rest with
            | Some (n, r) => Some (PInt (- n), r)
            | None => None
            end
          else
            match strip_prefix "null" s', strip_prefix "true" s',
                  strip_prefix "false" s' with
            | Some r, _, _ => Some (PNone, r)
            | _, Some r, _ => Some (PBool true, r)
            | _, _, Some r => Some (PBool false, r)
            | _, _, _ =>
                match parse_nat s' with
                | Some (n, r) => Some (PInt n, r)
                | None => None
                end
            end
      end
  end

with parse_elems (fuel : nat) (s : string) : option (list pyval * string) :=
  match fuel with
  | O => None
  | S fuel' =>
      match parse_value fuel' s with
      | Some (v, r) =>
          match skip_ws r with
          | String ","%char r' =>
              match parse_elems fuel' r' with
              | Some (l, r'') => Some (v :: l, r'')
              | None => None
              end
          | String "]"%char r' => Some ([v], r')
          | _ => None
          end
      | None => None
      end
  end

with parse_members (fuel : nat) (acc : list (string * pyval)) (s : string)
  : option (list (string * pyval) * string) :=
  match fuel with
  | O => None
  | S fuel' =>
      match skip_ws s with
      | String c rest =>
          if Ascii.eqb c dquote then
            match parse_chars rest with
            | Some (k, r) =>
                match skip_ws r with
                | String ":"%char r' =>
                    match parse_value fuel' r' with
                    | Some (v, r'') =>
                        let acc' := assoc_set k v acc in
                        match skip_ws r'' with
                        | String ","%char r3 => parse_members fuel' acc' r3
                        | String "}"%char r3 => Some (acc', r3)
                        | _ => None
                        end
                    | None => None
                    end
                | _ => None
                end
            | None => None
            end
          else None
      | EmptyString => None
      end
  end.

Definition loads (text : string) : option pyval :=
  match parse_value (S (2 * String.length text)) text with
  | Some (v, r) =>
      match skip_ws r with
      | EmptyString => Some v
      | _ => None
      end
  | None => None
  end.

Definition env : Env :=
  mkEnv "SendDeployV2.json" loads dumps
        (fun _ _ _ => Connected)
        (fun filename => if String.eqb filename "build.tar" then Some 2048 else None)
        (fun _ _ => PutOk).

Definition world (file : option string) (ks : list Z) : World :=
  mkWorld file None ks [] [].

Definition p1 : profile := mkProfile "10.0.0.5" "svc" "x" "/tmp/out".
Definition p2 : profile := mkProfile "10.0.0.6" "ops" "y" "/srv".

End Sample.

(** ** Worlds after an effect *)

(** The world after [save_entries]: the file rewritten and the write
    recorded, or the failure printed. *)
Definition after_save (env : Env) (entries : list profile) (last_selected_idx : Z)
  (w : World) : World :=
  match config_write_error w with
  | None =>
      let text := json_dumps env (store_to_py entries last_selected_idx) in
      emit_in (ConfigWrite text) (set_config_file text w)
  | Some msg => emit_in (Print ("Error saving to configuration file: " ++ msg)) w
  end.

(** What the removal branch puts on the screen. *)
Definition removed_screen : list event :=
  [ScrClear; ScrAddstr 0 0 "Connection has been removed." A_NORMAL; ScrRefresh].

(** ** Runs that do not write the configuration file *)

Definition is_write (ev : event) : bool :=
  match ev with
  | ConfigWrite _ => true
  | _ => false
  end.

(** From [w] to [w']: the file is the same and no write was recorded. *)
Definition no_write (w w' : World) : Prop :=
  config_file w' = config_file w /\
  exists evs, trace w' = (trace w ++ evs)%list /\ existsb is_write evs = false.

Definition read_only {A : Type} (m : M A) : Prop :=
  forall w, no_write w (snd (m w)).

(** ** Runs inside the bound of the driver loop *)

(** [m] never stops for lack of fuel and never adds pending keys. *)
Definition bounded {A : Type} (m : M A) : Prop :=
  forall w,
    fst (m w) <> Halt OutOfFuel /\
    (List.length (keys (snd (m w))) <= List.length (keys w))%nat.

(** What the driver keeps between two menus: on a non-empty list,
    [last_selected_idx] is an index of the list. *)
Definition cursor_ok (entries : list profile) (last_selected_idx : Z) : Prop :=
  entries <> [] -> 0 <= last_selected_idx <= len entries - 1.

(** ** The progress callback *)

(** [progress_bar.update(k)]: the position [n] of the bar moves by [k]. *)
Definition tqdm_update (k n : Z) : Z := n + k.

(** [progress(filename, size, sent)], on the position of the global
    [progress_bar]: [progress_bar.update(sent - progress_bar.n)]. *)
Definition progress (filename : string) (size sent : Z) (n : Z) : Z :=
  tqdm_update (sent - n) n.

(** ** Entry point *)

Section Main.

Variable env : Env.

(** [str(e)] for the exception [main] reports. *)
Variable str_of : exn -> string.

(** [main()], with the command line parsed as for [application]; the call
    of [curses.initscr()] that precedes [application] records nothing. *)
Definition main (quiet : bool) (filename : string) : M unit :=
  try_finally
    (try_except
       (application env quiet filename)
       (fun e =>
          match e with
          | KeyboardInterrupt =>
              Some (print (String "010"%char "Program exited by user (Ctrl+C).") ;;
                    emit CursesEndwin ;;
                    raise (SystemExit 0))
          | _ =>
              if is_Exception e
              then Some (emit CursesEndwin ;;
                         print ("Unhandled exception: " ++ str_of e) ;;
                         emit TracebackPrint ;;
                         raise (SystemExit 1))
              else None
          end))
    (emit CursesEndwin).

End Main.

(** ** Classifying effects *)

Definition is_refresh (ev : event) : bool :=
  match ev with
  | ScrRefresh => true
  | _ => false
  end.

(** The profile with another password. *)
Definition with_password (password : string) (p : profile) : profile :=
  mkProfile (ssh_ip p) (ssh_user p) password (remote_path p).

(** Every effect [m] adds to the trace satisfies [P]. *)
Definition emits_only (P : event -> Prop) {A : Type} (m : M A) : Prop :=
  forall w,
    exists evs, trace (snd (m w)) = (trace w ++ evs)%list /\ Forall P evs.

(** A write of the configuration file is the dump of a store whose index,
    when the list is not empty, is an index of the list. *)
Definition persists_ok (env : Env) (ev : event) : Prop :=
  match ev with
  | ConfigWrite text =>
      exists (entries : list profile) (idx : Z),
        text = json_dumps env (store_to_py entries idx) /\ cursor_ok entries idx
  | _ => True
  end.

(** Effects of the transport. *)
Definition is_network (ev : event) : bool :=
  match ev with
  | SshConnect _ _ _ _ | SshGetTransport | ScpOpen | ScpPut _ _ | ScpClose
  | SshClose => true
  | _ => false
  end.

(** What [add_new_entry] puts on the screen and does to the echo, in
    order. *)
Definition add_new_entry_screen : list event :=
  [ScrClear;
   ScrAddstr 0 0 "Enter new ssh connection (Format: IP, User, Password, Remote Path):" A_BOLD;
   ScrRefresh;
   ScrAddstr 2 0 "Enter SSH server IP address: " A_NORMAL;
   CursesEcho;
   ScrAddstr 5 0 "Enter SSH username: " A_NORMAL;
   ScrAddstr 8 0 "Enter SSH password: " A_NORMAL;
   CursesNoecho;
   ScrAddstr 11 0 "Enter remote path to upload the file (e.g., /remote/path/): " A_NORMAL;
   CursesEcho].

(** * Properties *)

(** Turns the boolean comparisons found in hypotheses into propositions. *)
Ltac zbool :=
  repeat match goal with
  | H : (_ >? _) = _ |- _ => rewrite Z.gtb_ltb in H
  | H : (_ <? _) = true |- _ => apply Z.ltb_lt in H
  | H : (_ <? _) = false |- _ => apply Z.ltb_ge in H
  | H : (_ <=? _) = true |- _ => apply Z.leb_le in H
  | H : (_ <=? _) = false |- _ => apply Z.leb_gt in H
  | H : (_ =? _) = true |- _ => apply Z.eqb_eq in H
  | H : (_ =? _) = false |- _ => apply Z.eqb_neq in H
  | H : (_ && _) = true |- _ => apply andb_true_iff in H; destruct H
  | H : (_ && _) = false |- _ => apply andb_false_iff in H; destruct H
  | H : (_ || _) = false |- _ => apply orb_false_iff in H; destruct H
  end.

(** Equality of two worlds built from the same one by recorded effects. *)
Ltac worlds :=
  unfold emits_in, emit_in, set_keys;
  cbn [config_file config_write_error keys lines trace];
  rewrite <- ?app_assoc; reflexivity.

(** ** Running the store operations *)

(** [save_entries] always returns: a failed write is caught and printed. *)
Lemma save_entries_run (env : Env) (entries : list profile) (last : Z) (w : World) :
  save_entries env entries last w = (Ret tt, after_save env entries last w).
Proof.
  unfold save_entries, try_except, write_config, after_save.
  destruct (config_write_error w); reflexivity.
Qed.

Lemma remove_entry_nil {A : Type} (idx : Z) : remove_entry (@nil A) idx = [].
Proof.
  unfold remove_entry.
  destruct ((0 <=? idx) && (idx <? len (@nil A))); [destruct (Z.to_nat idx)|];
    reflexivity.
Qed.

(** ** Menu controller *)

Lemma len_nonneg {A : Type} (l : list A) : 0 <= len l.
Proof. unfold len. lia. Qed.

Lemma len_cons {A : Type} (a : A) (l : list A) : len (a :: l) = len l + 1.
Proof. unfold len. simpl List.length. lia. Qed.

(** A key that keeps the loop going moves the cursor by at most one, and
    only inside the list. *)
Lemma on_key_stay_range (entries : list profile) (c key c' : Z) :
  on_key entries c key = Stay c' ->
  0 <= c <= len entries - 1 ->
  0 <= c' <= len entries - 1.
Proof.
  unfold on_key. intros H Hc.
  repeat match type of H with
         | (if ?b then _ else _) = _ => destruct b eqn:?; try discriminate
         end;
  injection H as <-;
  repeat match goal with
         | |- context [if ?b then _ else _] => destruct b eqn:?
         end; zbool; lia.
Qed.

(** An unrecognized key falls through the whole chain. *)
Lemma on_key_unrecognized (entries : list profile) (c key : Z) :
  recognized_key key = false -> on_key entries c key = Stay c.
Proof.
  unfold recognized_key, on_key. intros H.
  repeat (apply orb_false_iff in H; destruct H as [H ?]).
  repeat match goal with E : (_ =? _) = false |- _ => rewrite E; clear E end.
  reflexivity.
Qed.

(** What the loop returns was decided at a cursor the loop can hold. *)
Lemma menu_loop_browsing (entries : list profile) (ks : list Z) :
  forall (c0 c : Z) (evs : list event) (a : action) (rest : list Z),
    browsing entries c0 c ->
    menu_loop entries c ks = (evs, Returned a, rest) ->
    exists c' key, browsing entries c0 c' /\ on_key entries c' key = Return a.
Proof.
  induction ks as [|key ks IH]; intros c0 c evs a rest Hb H; simpl in H.
  - discriminate.
  - unfold menu_step in H. destruct (on_key entries c key) as [c'| a' |] eqn:E.
    + destruct (menu_loop entries c' ks) as [[evs' e] rest'] eqn:L.
      injection H as _ -> _.
      eapply IH; [ | exact L]. eapply browsing_key; eassumption.
    + injection H as _ <- _. exists c, key. split; assumption.
    + discriminate.
Qed.

(** From a cursor inside the list, the index the loop returns with Enter
    or 'c' is inside the list. *)
Lemma menu_loop_index_in_range (entries : list profile) (ks : list Z) :
  forall (c : Z) (evs : list event) (a : action) (rest : list Z),
    0 <= c <= len entries - 1 ->
    menu_loop entries c ks = (evs, Returned a, rest) ->
    match a with
    | Selected idx | RemoveRequested idx => 0 <= idx <= len entries - 1
    | _ => True
    end.
Proof.
  induction ks as [|key ks IH]; intros c evs a rest Hc H; simpl in H.
  - discriminate.
  - unfold menu_step in H. destruct (on_key entries c key) as [c'| a' |] eqn:E.
    + destruct (menu_loop entries c' ks) as [[evs' e] rest'] eqn:L.
      injection H as _ -> _.
      eapply IH; [ | exact L]. eapply on_key_stay_range; eassumption.
    + injection H as _ <- _. unfold on_key in E.
      repeat match type of E with
             | (if ?b then _ else _) = _ => destruct b; try discriminate
             end; injection E as <-; exact Hc || exact I.
    + discriminate.
Qed.

(** C4. The cursor is an invariant of Browsing: on a non-empty list, from
    an initial cursor inside [0, len - 1], every cursor the loop reaches by
    any sequence of keys is inside [0, len - 1]. *)
Theorem browsing_cursor_in_range (entries : list profile) (c0 c : Z) :
  entries <> [] ->
  0 <= c0 <= len entries - 1 ->
  browsing entries c0 c ->
  0 <= c <= len entries - 1.
Proof.
  intros _ H0 Hb. induction Hb as [|c key c' _ IH Hk].
  - exact H0.
  - eapply on_key_stay_range; eassumption.
Qed.

Lemma browsing_cursor_in_range_witness :
  browsing [Sample.p1; Sample.p2] 0 1 /\ 0 <= 1 <= len [Sample.p1; Sample.p2] - 1.
Proof.
  assert (B : browsing [Sample.p1; Sample.p2] 0 1).
  { apply (browsing_key _ 0 0 KEY_DOWN 1); [apply browsing_start | reflexivity]. }
  split; [exact B|].
  apply (browsing_cursor_in_range [Sample.p1; Sample.p2] 0 1);
    [discriminate | vm_compute; split; discriminate | exact B].
Defined.

(** Counterexample to C1 as stated: on the empty list, with the cursor at
    0, one invocation that reads Enter returns [Selected 0] and one that
    reads 'c' returns [RemoveRequested 0]; and from a stored cursor of 3, Up
    moves the cursor to 2. *)
Lemma empty_list_enter_and_c_are_emitted :
  fst (interactive_select [] 0 (Sample.world None [13])) = Ret (Selected 0) /\
  fst (interactive_select [] 0 (Sample.world None [ord "c"]))
  = Ret (RemoveRequested 0) /\
  on_key [] 3 KEY_UP = Stay 2.
Proof. split; [|split]; reflexivity. Qed.

(** C1, amended.  On the empty list, with the cursor at 0 or -1 (what the
    driver passes for an empty list), Up and Down redraw and leave the
    cursor where it is; 'c' ends the invocation with [RemoveRequested] of
    the cursor, and the driver's removal for it keeps the list empty and
    sets [last_selected_idx] to -1. *)
Theorem empty_list_keys (c : Z) :
  -1 <= c <= 0 ->
  menu_step [] c KEY_UP = (display_menu [] c, Stay c) /\
  menu_step [] c KEY_DOWN = (display_menu [] c, Stay c) /\
  menu_step [] c (ord "c") = ([], Return (RemoveRequested c)) /\
  forall (env : Env) (last_selected_idx k : Z) (ks : list Z) (w : World),
    keys w = k :: ks ->
    fst (application_remove env [] last_selected_idx c w) = Ret ([], -1).
Proof.
  intros Hc. unfold menu_step, on_key. cbn [Z.eqb KEY_UP KEY_DOWN].
  assert (Up : (c >? 0) = false) by (rewrite Z.gtb_ltb; apply Z.ltb_ge; lia).
  assert (Down : (c <? len (@nil profile) - 1) = false)
    by (apply Z.ltb_ge; cbn; lia).
  rewrite Up, Down. repeat split.
  intros env last k ks w Hk.
  unfold application_remove. rewrite remove_entry_nil. cbn [reclamp].
  unfold bind, emit, getch. cbn [keys emit_in]. rewrite Hk.
  rewrite save_entries_run. reflexivity.
Qed.

Lemma empty_list_keys_witness :
  -1 <= 0 <= 0 /\
  menu_step [] 0 KEY_UP = (display_menu [] 0, Stay 0) /\
  menu_step [] 0 KEY_DOWN = (display_menu [] 0, Stay 0) /\
  menu_step [] 0 (ord "c") = ([], Return (RemoveRequested 0)) /\
  forall (env : Env) (last_selected_idx k : Z) (ks : list Z) (w : World),
    keys w = k :: ks ->
    fst (application_remove env [] last_selected_idx 0 w) = Ret ([], -1).
Proof.
  split; [lia|]. apply (empty_list_keys 0). lia.
Defined.

(** Counterexample to C5 as stated: 'x' (120) is not a recognized key, and
    the step that reads it redraws the whole menu. *)
Lemma unrecognized_key_is_redrawn :
  recognized_key 120 = false /\
  fst (menu_step [] 0 120) = display_menu [] 0 /\
  In ScrRefresh (fst (menu_step [] 0 120)).
Proof.
  repeat split; try reflexivity. cbn. tauto.
Qed.

(** C5, amended.  An unrecognized key leaves the cursor unchanged, and
    the step redraws the menu once, as it was drawn before the key. *)
Theorem unrecognized_key_redraws_same (entries : list profile) (c key : Z) :
  recognized_key key = false ->
  menu_step entries c key = (display_menu entries c, Stay c).
Proof.
  intros H. unfold menu_step. rewrite (on_key_unrecognized entries c key H).
  reflexivity.
Qed.

Lemma unrecognized_key_redraws_same_witness :
  menu_step [Sample.p1] 0 120 = (display_menu [Sample.p1] 0, Stay 0).
Proof.
  apply (unrecognized_key_redraws_same [Sample.p1] 0 120). reflexivity.
Defined.

(** ** Removal *)

Lemma remove_entry_length {A : Type} (entries : list A) (idx : Z) :
  0 <= idx < len entries ->
  len (remove_entry entries idx) = len entries - 1.
Proof.
  intros H. unfold remove_entry.
  destruct ((0 <=? idx) && (idx <? len entries)) eqn:E.
  - unfold len in *. rewrite length_app, length_firstn, length_skipn. lia.
  - zbool; lia.
Qed.

(** For an index outside [0, len - 1], negative ones included,
    [remove_entry] returns the list it was given; it has no exceptional
    exit. *)
Lemma remove_entry_out_of_range (entries : list profile) (idx : Z) :
  idx < 0 \/ len entries - 1 < idx ->
  remove_entry entries idx = entries.
Proof.
  intros H. unfold remove_entry.
  destruct ((0 <=? idx) && (idx <? len entries)) eqn:E; [|reflexivity].
  zbool; lia.
Qed.

Lemma reclamp_range (entries : list profile) (last : Z) :
  -1 <= last -> -1 <= reclamp entries last <= len entries - 1.
Proof.
  intros H. destruct entries as [|p rest]; cbn [reclamp].
  - cbn. lia.
  - pose proof (len_nonneg (p :: rest)). rewrite len_cons in *.
    pose proof (len_nonneg rest). lia.
Qed.

(** Counterexample to C7 as stated: on the empty list every index is
    outside the range; the removal of index 0 from the store that holds the
    empty list and [last_selected_idx] 0 leaves the list empty and returns
    [last_selected_idx] -1, not 0. *)
Lemma remove_out_of_range_resets_index :
  (0 < 0 \/ len (@nil profile) - 1 < 0) /\
  remove_entry (@nil profile) 0 = [] /\
  fst (application_remove Sample.env [] 0 0 (Sample.world None [32]))
  = Ret ([], -1).
Proof.
  split; [right; reflexivity|]. split; reflexivity.
Qed.

(** C7, amended.  For an index outside [0, len - 1], negative ones
    included, the removal is not an error and leaves the profile list
    unchanged; the driver then re-clamps [last_selected_idx] as after any
    removal: -1 when the list is empty, [min(last_selected_idx, len - 1)]
    otherwise, so it is unchanged when the list is not empty and it was at
    most [len - 1]. *)
Theorem application_remove_out_of_range (env : Env) (entries : list profile)
  (last_selected_idx idx k : Z) (ks : list Z) (w : World) :
  idx < 0 \/ len entries - 1 < idx ->
  keys w = k :: ks ->
  remove_entry entries idx = entries /\
  exists last' : Z,
    application_remove env entries last_selected_idx idx w
    = (Ret (entries, last'),
       after_save env entries last' (set_keys ks (emits_in removed_screen w))) /\
    (entries = [] -> last' = -1) /\
    (entries <> [] -> last' = Z.min last_selected_idx (len entries - 1)) /\
    (entries <> [] -> last_selected_idx <= len entries - 1 ->
     last' = last_selected_idx).
Proof.
  intros Hidx Hk.
  pose proof (remove_entry_out_of_range entries idx Hidx) as R.
  split; [exact R|]. exists (reclamp entries last_selected_idx).
  split; [|split; [|split]].
  - unfold application_remove, bind, emit, getch. cbn [keys emit_in].
    rewrite Hk, R. rewrite save_entries_run.
    unfold emits_in, emit_in, removed_screen. cbn [trace config_file
      config_write_error keys lines]. rewrite <- !app_assoc. reflexivity.
  - intros ->. reflexivity.
  - destruct entries; [congruence | reflexivity].
  - destruct entries; [congruence|]. intros _ H. cbn [reclamp]. lia.
Qed.

Lemma application_remove_out_of_range_witness :
  remove_entry [Sample.p1; Sample.p2] 2 = [Sample.p1; Sample.p2] /\
  exists last' : Z,
    application_remove Sample.env [Sample.p1; Sample.p2] 1 2
                       (Sample.world None [32])
    = (Ret ([Sample.p1; Sample.p2], last'),
       after_save Sample.env [Sample.p1; Sample.p2] last'
                  (set_keys [] (emits_in removed_screen (Sample.world None [32])))) /\
    ([Sample.p1; Sample.p2] = [] -> last' = -1) /\
    ([Sample.p1; Sample.p2] <> [] ->
     last' = Z.min 1 (len [Sample.p1; Sample.p2] - 1)) /\
    ([Sample.p1; Sample.p2] <> [] -> 1 <= len [Sample.p1; Sample.p2] - 1 ->
     last' = 1).
Proof.
  apply (application_remove_out_of_range Sample.env [Sample.p1; Sample.p2]
                                         1 2 32 [] (Sample.world None [32])).
  - right. vm_compute. reflexivity.
  - reflexivity.
Defined.

(** C8. For a valid index, the removal the driver performs (once the key
    that dismisses its message is read) leaves a list shorter by exactly
    one and a [last_selected_idx] that is -1 when the list became empty and
    [min(last_selected_idx, len - 1)] otherwise, inside [-1, len - 1]; that
    list and index are what it saves. *)
Theorem application_remove_valid (env : Env) (entries : list profile)
  (last_selected_idx idx k : Z) (ks : list Z) (w : World) :
  0 <= idx <= len entries - 1 ->
  -1 <= last_selected_idx ->
  keys w = k :: ks ->
  exists (entries' : list profile) (last' : Z),
    application_remove env entries last_selected_idx idx w
    = (Ret (entries', last'),
       after_save env entries' last' (set_keys ks (emits_in removed_screen w))) /\
    len entries' = len entries - 1 /\
    (entries' = [] -> last' = -1) /\
    (entries' <> [] -> last' = Z.min last_selected_idx (len entries' - 1)) /\
    -1 <= last' <= len entries' - 1.
Proof.
  intros Hidx Hlast Hk.
  exists (remove_entry entries idx),
         (reclamp (remove_entry entries idx) last_selected_idx).
  split; [|split; [|split; [|split]]].
  - unfold application_remove, bind, emit, getch. cbn [keys emit_in].
    rewrite Hk. rewrite save_entries_run.
    unfold emits_in, emit_in, removed_screen. cbn [trace config_file
      config_write_error keys lines]. rewrite <- !app_assoc. reflexivity.
  - apply remove_entry_length. lia.
  - intros ->. reflexivity.
  - destruct (remove_entry entries idx); [congruence | reflexivity].
  - apply reclamp_range. exact Hlast.
Qed.

Lemma application_remove_valid_witness :
  exists (entries' : list profile) (last' : Z),
    application_remove Sample.env [Sample.p1; Sample.p2; Sample.p1] 2 2
                       (Sample.world None [32])
    = (Ret (entries', last'),
       after_save Sample.env entries' last'
                  (set_keys [] (emits_in removed_screen (Sample.world None [32])))) /\
    len entries' = len [Sample.p1; Sample.p2; Sample.p1] - 1 /\
    (entries' = [] -> last' = -1) /\
    (entries' <> [] -> last' = Z.min 2 (len entries' - 1)) /\
    -1 <= last' <= len entries' - 1.
Proof.
  apply (application_remove_valid Sample.env [Sample.p1; Sample.p2; Sample.p1]
                                  2 2 32 [] (Sample.world None [32])).
  - vm_compute. split; discriminate.
  - lia.
  - reflexivity.
Defined.

(** ** Loading and saving *)

Section Store.

Variable env : Env.

(** A missing file gives the default data, with a warning. *)
Lemma load_entries_missing_file (w : World) :
  config_file w = None ->
  load_entries env w
  = (Ret default_data,
     emit_in (Print ("Warning: Configuration file not found at "
                     ++ CONFIG_PATH env ++ ". Creating a new one.")) w).
Proof.
  intros H. unfold load_entries, try_except, bind, read_config.
  rewrite H. reflexivity.
Qed.

(** Text that does not decode gives the default data, with a message. *)
Lemma load_entries_undecodable (w : World) (text : string) :
  config_file w = Some text ->
  json_loads env text = None ->
  load_entries env w
  = (Ret default_data,
     emit_in (Print ("Error: Configuration file at " ++ CONFIG_PATH env
                     ++ " is corrupted.  Overwriting with default settings.")) w).
Proof.
  intros H J. unfold load_entries, try_except, bind, read_config, json_load.
  rewrite H, J. reflexivity.
Qed.

(** Text that decodes to an object never makes [load_entries] raise: the
    object is returned with the two keys present. *)
Lemma load_entries_object (w : World) (text : string) (d : list (string * pyval)) :
  config_file w = Some text ->
  json_loads env text = Some (PDict d) ->
  exists d', load_entries env w = (Ret (PDict d'), w) /\
             assoc_get "entries" d' <> None /\
             assoc_get "last_selected_idx" d' <> None.
Proof.
  intros H J. unfold load_entries, try_except, bind, read_config, json_load.
  rewrite H, J.
  assert (S1 : forall k v d0, assoc_get k (assoc_set k v d0) <> None).
  { intros k v d0. induction d0 as [|[k0 v0] d0 IH]; cbn.
    - rewrite String.eqb_refl. discriminate.
    - destruct (String.eqb k0 k) eqn:E; cbn; rewrite E; [discriminate | exact IH]. }
  assert (S2 : forall k k' v d0, assoc_get k d0 <> None ->
                                 assoc_get k (assoc_set k' v d0) <> None).
  { intros k k' v d0. induction d0 as [|[k0 v0] d0 IH]; cbn; [congruence|].
    destruct (String.eqb k0 k') eqn:E'; cbn; destruct (String.eqb k0 k);
      auto; discriminate. }
  simpl. destruct (assoc_get "entries" d) eqn:E1; simpl.
  - destruct (assoc_get "last_selected_idx" d) eqn:E2; simpl.
    + exists d. split; [reflexivity | split; congruence].
    + eexists. split; [reflexivity|]. split; [apply S2; congruence | apply S1].
  - destruct (assoc_get "last_selected_idx" (assoc_set "entries" (PList []) d))
      eqn:E2; simpl.
    + eexists. split; [reflexivity | split; [apply S1 | congruence]].
    + eexists. split; [reflexivity|]. split; [apply S2, S1 | apply S1].
Qed.

(** Text that decodes to what [save_entries] writes is returned as it is. *)
Lemma load_entries_store (w : World) (text : string) (entries : list profile)
  (idx : Z) :
  config_file w = Some text ->
  json_loads env text = Some (store_to_py entries idx) ->
  load_entries env w = (Ret (store_to_py entries idx), w).
Proof.
  intros H J. unfold load_entries, try_except, bind, read_config, json_load.
  rewrite H, J. reflexivity.
Qed.

Lemma profiles_of_py_to_py (entries : list profile) :
  profiles_of_py (map profile_to_py entries) = Some entries.
Proof.
  induction entries as [|[a b c d] rest IH]; [reflexivity|].
  cbn [map profiles_of_py]. rewrite IH. reflexivity.
Qed.

Lemma read_store_to_py (entries : list profile) (idx : Z) (w : World) :
  read_store (store_to_py entries idx) w = (Ret (entries, idx), w).
Proof.
  unfold read_store, bind. cbn. rewrite profiles_of_py_to_py. reflexivity.
Qed.

Lemma load_store_store (w : World) (text : string) (entries : list profile)
  (idx : Z) :
  config_file w = Some text ->
  json_loads env text = Some (store_to_py entries idx) ->
  load_store env w = (Ret (entries, idx), w).
Proof.
  intros H J. unfold load_store, bind.
  rewrite (load_entries_store w text entries idx H J).
  apply read_store_to_py.
Qed.

(** Text that decodes to anything but an object makes the loading of the
    store raise [TypeError]: in [load_entries] when one of the two keys is
    not found in the value, at [data["entries"]] otherwise. *)
Lemma load_store_not_object (w : World) (text : string) (data : pyval) :
  config_file w = Some text ->
  json_loads env text = Some data ->
  (forall d, data <> PDict d) ->
  fst (load_store env w) = Raise TypeError.
Proof.
  intros H J N.
  unfold load_store, load_entries, try_except, bind, read_config, json_load.
  rewrite H, J.
  destruct data as [ | b | n | bits | s | l | d ]; try reflexivity.
  - simpl. destruct (str_contains "entries" s); simpl; [|reflexivity].
    destruct (str_contains "last_selected_idx" s); reflexivity.
  - simpl. destruct (existsb (is_str "entries") l); simpl; [|reflexivity].
    destruct (existsb (is_str "last_selected_idx") l); reflexivity.
  - exfalso. apply (N d). reflexivity.
Qed.

(** C6. When the write succeeds and the codec reads back what it wrote,
    loading right after [save_entries] gives the same profile list and the
    same index, for every list and every index. *)
Theorem save_then_load (entries : list profile) (idx : Z) (w : World) :
  config_write_error w = None ->
  json_loads env (json_dumps env (store_to_py entries idx))
  = Some (store_to_py entries idx) ->
  (save_entries env entries idx ;; load_store env) w
  = (Ret (entries, idx), after_save env entries idx w).
Proof.
  intros Hw J. unfold bind at 1. rewrite save_entries_run.
  apply load_store_store with (text := json_dumps env (store_to_py entries idx)).
  - unfold after_save. rewrite Hw. reflexivity.
  - exact J.
Qed.

End Store.

Lemma save_then_load_witness :
  (save_entries Sample.env [] (-1) ;; load_store Sample.env) (Sample.world None [])
  = (Ret ([], -1), after_save Sample.env [] (-1) (Sample.world None [])) /\
  (save_entries Sample.env [Sample.p1] 0 ;; load_store Sample.env)
    (Sample.world None [])
  = (Ret ([Sample.p1], 0), after_save Sample.env [Sample.p1] 0 (Sample.world None [])) /\
  (save_entries Sample.env [Sample.p1; Sample.p2] 1 ;; load_store Sample.env)
    (Sample.world None [])
  = (Ret ([Sample.p1; Sample.p2], 1),
     after_save Sample.env [Sample.p1; Sample.p2] 1 (Sample.world None [])).
Proof.
  split; [|split].
  - apply (save_then_load Sample.env [] (-1) (Sample.world None []));
      [reflexivity | vm_compute; reflexivity].
  - apply (save_then_load Sample.env [Sample.p1] 0 (Sample.world None []));
      [reflexivity | vm_compute; reflexivity].
  - apply (save_then_load Sample.env [Sample.p1; Sample.p2] 1 (Sample.world None []));
      [reflexivity | vm_compute; reflexivity].
Defined.

(** C3, the failing input.  A configuration file that holds the JSON text
    of an empty array decodes, is not a dict, and makes [load_entries] raise
    [TypeError] at [data['entries'] = []]; neither handler catches it. *)
Theorem load_entries_raises_on_array :
  Sample.loads "[]" = Some (PList []) /\
  load_entries Sample.env (Sample.world (Some "[]") [])
  = (Raise TypeError, Sample.world (Some "[]") []).
Proof. split; reflexivity. Qed.

(** ** Transfer *)

Lemma emit_in_emits_in (ev : event) (evs : list event) (w : World) :
  emit_in ev (emits_in evs w) = emits_in (evs ++ [ev]) w.
Proof. unfold emit_in, emits_in. cbn. rewrite app_assoc. reflexivity. Qed.

Lemma emit_in_as_emits_in (ev : event) (w : World) :
  emit_in ev w = emits_in [ev] w.
Proof. reflexivity. Qed.

(** Counterexample to C2 as stated: with a transport that accepts the
    connection and a local file that does not exist, the session is opened
    first; the file is looked at afterwards, found missing, and the session
    is closed. *)
Lemma send_file_connects_before_file_check :
  getsize Sample.env "missing.bin" = None /\
  send_file Sample.env "missing.bin" "10.0.0.5" "svc" "x" "/tmp/out"
            (Sample.world None [])
  = (Ret tt,
     emits_in [SshConnect "10.0.0.5" "svc" "x" 10; SshGetTransport;
               GetSize "missing.bin";
               Print "Error: The file 'missing.bin' was not found."; SshClose]
              (Sample.world None [])).
Proof. split; reflexivity. Qed.

(** C2, amended.  When the local file does not exist, the transfer
    first attempts the connection.  If the session opens, the missing file
    is reported next, before any SCP effect, and the session is closed; if
    the connection fails, that failure is what is reported, and the missing
    file is not. *)
Theorem send_file_missing_file (env : Env) (filename ip user password remote : string)
  (w : World) :
  getsize env filename = None ->
  (ssh_connect env ip user password = Connected ->
   send_file env filename ip user password remote w
   = (Ret tt,
      emits_in [SshConnect ip user password 10; SshGetTransport;
                GetSize filename; Print (not_found_message filename);
                SshClose] w)) /\
  (forall e : exn,
     ssh_connect env ip user password = ConnectRaises e ->
     is_Exception e = true ->
     exists msg : string,
       send_file env filename ip user password remote w
       = (Ret tt, emits_in [SshConnect ip user password 10; Print msg] w) /\
       msg <> not_found_message filename).
Proof.
  intros Hsize. split.
  - intros Hc.
    unfold send_file, create_ssh_client, file_size, try_except, try_finally,
      bind, print, emit, ret, raise.
    rewrite Hc, Hsize. cbv beta iota. f_equal. worlds.
  - intros e Hc He.
    unfold send_file, create_ssh_client, try_except, bind, print, emit, ret, raise.
    rewrite Hc.
    destruct e; try discriminate He; cbv beta iota delta [is_Exception];
      (eexists; split; [f_equal; worlds | unfold not_found_message; discriminate]).
Qed.

Lemma send_file_missing_file_witness :
  send_file Sample.env "missing.bin" "10.0.0.5" "svc" "x" "/tmp/out"
            (Sample.world None [])
  = (Ret tt,
     emits_in [SshConnect "10.0.0.5" "svc" "x" 10; SshGetTransport;
               GetSize "missing.bin"; Print (not_found_message "missing.bin");
               SshClose]
              (Sample.world None [])).
Proof.
  apply (send_file_missing_file Sample.env "missing.bin" "10.0.0.5" "svc" "x"
                                "/tmp/out" (Sample.world None []));
    reflexivity.
Defined.

(** ** Repeat-last mode *)

Lemma no_write_refl (w : World) : no_write w w.
Proof.
  split; [reflexivity|]. exists []. rewrite app_nil_r. split; reflexivity.
Qed.

Lemma no_write_trans (w1 w2 w3 : World) :
  no_write w1 w2 -> no_write w2 w3 -> no_write w1 w3.
Proof.
  intros [F1 [l1 [T1 N1]]] [F2 [l2 [T2 N2]]]. split; [congruence|].
  exists (l1 ++ l2)%list. split.
  - rewrite T2, T1, app_assoc. reflexivity.
  - rewrite existsb_app, N1, N2. reflexivity.
Qed.

Lemma no_write_emits_in (evs : list event) (w : World) :
  existsb is_write evs = false -> no_write w (emits_in evs w).
Proof. intros H. split; [reflexivity|]. exists evs. split; [reflexivity | exact H]. Qed.

Create HintDb read_only.

Lemma read_only_ret {A : Type} (a : A) : read_only (ret a).
Proof. intros w. apply no_write_refl. Qed.

Lemma read_only_raise {A : Type} (e : exn) : read_only (@raise A e).
Proof. intros w. apply no_write_refl. Qed.

Lemma read_only_halt_with {A : Type} (h : halt) : read_only (@halt_with A h).
Proof. intros w. apply no_write_refl. Qed.

Lemma read_only_lift {A : Type} (r : result A) : read_only (lift r).
Proof. destruct r; [apply read_only_ret | apply read_only_raise]. Qed.

Lemma read_only_emit (ev : event) : is_write ev = false -> read_only (emit ev).
Proof.
  intros H w. apply (no_write_emits_in [ev]). cbn. rewrite H. reflexivity.
Qed.

Lemma read_only_print (s : string) : read_only (print s).
Proof. apply read_only_emit. reflexivity. Qed.

Lemma read_only_bind {A B : Type} (m : M A) (k : A -> M B) :
  read_only m -> (forall a, read_only (k a)) -> read_only (bind m k).
Proof.
  intros Hm Hk w. unfold bind. specialize (Hm w).
  destruct (m w) as [[a|e|h] w1]; cbn [snd] in Hm; cbn [snd]; try exact Hm.
  eapply no_write_trans; [exact Hm | apply Hk].
Qed.

Lemma read_only_try_except {A : Type} (m : M A) (handler : exn -> option (M A)) :
  read_only m ->
  (forall e h, handler e = Some h -> read_only h) ->
  read_only (try_except m handler).
Proof.
  intros Hm Hh w. unfold try_except. specialize (Hm w).
  destruct (m w) as [[a|e|h] w1]; cbn [snd] in Hm; cbn [snd]; try exact Hm.
  destruct (handler e) as [h|] eqn:E; cbn [snd]; [|exact Hm].
  eapply no_write_trans; [exact Hm | eapply Hh; exact E].
Qed.

Lemma read_only_try_finally {A : Type} (m : M A) (f : M unit) :
  read_only m -> read_only f -> read_only (try_finally m f).
Proof.
  intros Hm Hf w. unfold try_finally. specialize (Hm w).
  destruct (m w) as [[a|e|h] w1]; cbn [snd] in Hm; cbn [snd]; try exact Hm;
    (eapply no_write_trans; [exact Hm|]);
    apply read_only_bind; auto using read_only_ret, read_only_raise.
Qed.

#[local] Hint Resolve read_only_ret read_only_raise read_only_halt_with
  read_only_lift read_only_print read_only_bind read_only_try_except
  read_only_try_finally : read_only.
#[local] Hint Extern 1 (read_only (emit _)) =>
  (apply read_only_emit; reflexivity) : read_only.

(** Settles the side condition on the handlers of a [try]. *)
Ltac handlers :=
  let e := fresh "e" in
  let h := fresh "h" in
  let E := fresh "E" in
  intros e h E; destruct e; cbn in E; try discriminate E;
  injection E as <-; auto 10 with read_only.

Section Quiet.

Variable env : Env.

Lemma read_only_load_entries : read_only (load_entries env).
Proof.
  unfold load_entries. apply read_only_try_except; [|handlers].
  apply read_only_bind.
  { intros w. unfold read_config. destruct (config_file w); apply no_write_refl. }
  intros text. apply read_only_bind.
  { unfold json_load. destruct (json_loads env text); auto with read_only. }
  intros data. repeat (apply read_only_bind; [auto with read_only | intros ?]);
    try (match goal with |- read_only (if ?b then _ else _) => destruct b end);
    auto with read_only.
Qed.

Lemma read_only_load_store : read_only (load_store env).
Proof.
  unfold load_store, read_store.
  apply read_only_bind; [apply read_only_load_entries | intros data].
  repeat (apply read_only_bind; [auto with read_only | intros ?]).
  destruct (entries_of_py _); [|auto with read_only].
  match goal with |- read_only (match ?v with _ => _ end) => destruct v end;
    auto with read_only.
Qed.

Lemma read_only_create_ssh_client (server user password : string) :
  read_only (create_ssh_client env server user password).
Proof.
  unfold create_ssh_client. apply read_only_try_except.
  - apply read_only_bind; [auto with read_only | intros _].
    destruct (ssh_connect env server user password); auto with read_only.
  - intros e h E. destruct e; cbn in E; try discriminate E;
      injection E as <-; auto 10 with read_only.
Qed.

Lemma read_only_send_file (filename ip user password remote : string) :
  read_only (send_file env filename ip user password remote).
Proof.
  unfold send_file.
  apply read_only_bind; [apply read_only_create_ssh_client | intros [c|]];
    [|auto with read_only].
  apply read_only_try_finally; [|auto with read_only].
  apply read_only_try_except; [|handlers].
  apply read_only_bind; [auto with read_only | intros _].
  apply read_only_bind.
  { unfold file_size. destruct (getsize env filename); auto with read_only. }
  intros size. repeat (apply read_only_bind; [auto with read_only | intros _]).
  apply read_only_try_finally; [|auto with read_only].
  apply read_only_bind.
  { unfold put. apply read_only_bind; [auto with read_only | intros _].
    destruct (scp_put env filename remote); auto with read_only. }
  intros _. auto 10 with read_only.
Qed.

Lemma read_only_copy_to (filename : string) (entries : list profile) (idx : Z) :
  read_only (copy_to env filename entries idx).
Proof.
  unfold copy_to. apply read_only_bind; [auto with read_only | intros entry].
  apply read_only_bind; [auto with read_only | intros _].
  apply read_only_send_file.
Qed.

Lemma read_only_application_quiet (filename : string) (entries : list profile)
  (idx : Z) :
  read_only (application_quiet env filename entries idx).
Proof.
  unfold application_quiet. apply read_only_bind; [auto with read_only | intros _].
  destruct entries; [auto with read_only | apply read_only_copy_to].
Qed.

(** C10. In repeat-last mode the configuration file is never written:
    whatever the file holds, after [application] with [--quiet] the file is
    what it was and the run recorded no write, also when a stored -1 was
    read as 0. *)
Theorem quiet_mode_never_saves (filename : string) (w : World) :
  let w' := snd (application env true filename w) in
  config_file w' = config_file w /\
  exists evs : list event,
    trace w' = (trace w ++ evs)%list /\
    forall text : string, ~ In (ConfigWrite text) evs.
Proof.
  assert (R : read_only (application env true filename)).
  { unfold application.
    repeat (apply read_only_bind; [auto with read_only | intros _]).
    apply read_only_bind; [apply read_only_load_store | intros st].
    apply read_only_application_quiet. }
  destruct (R w) as [F [evs [T N]]]. cbn zeta. split; [exact F|].
  exists evs. split; [exact T|]. intros text Hin.
  assert (X : existsb is_write evs = true)
    by (apply existsb_exists; exists (ConfigWrite text); split;
        [exact Hin | reflexivity]).
  congruence.
Qed.

End Quiet.

(** [entries[0]] on a non-empty list. *)
Lemma py_list_index_head {A : Type} (a : A) (l : list A) :
  py_list_index (a :: l) 0 = Ok a.
Proof.
  unfold py_list_index. cbn [Z.ltb Z.compare]. rewrite len_cons.
  assert (B : (0 <=? 0) && (0 <? len l + 1) = true).
  { pose proof (len_nonneg l). apply andb_true_iff.
    split; [reflexivity | apply Z.ltb_lt; lia]. }
  rewrite B. reflexivity.
Qed.

Section RepeatLast.

Variable env : Env.

(** The world when the store has been loaded at the start of [application]. *)
Lemma application_quiet_run (filename : string) (w w1 : World)
  (entries : list profile) (idx : Z) :
  load_store env (emits_in [CursesRaw; CursSet 0; ScrClear] w)
  = (Ret (entries, idx), w1) ->
  application env true filename w
  = application_quiet env filename entries (if idx =? -1 then 0 else idx) w1.
Proof.
  intros L. unfold application, bind at 1 2 3, emit.
  rewrite (emit_in_as_emits_in CursesRaw w), !emit_in_emits_in. cbn [app].
  unfold bind at 1. rewrite L. reflexivity.
Qed.

(** C9. In repeat-last mode, when the loaded store is not empty and its
    [last_selected_idx] is -1, the driver prints the first profile and
    calls the transfer with it, without raising; when the loaded store is
    empty, it prints a message and performs no transfer. *)
Theorem quiet_repeat_last (filename : string) (w w1 : World)
  (entries : list profile) (idx : Z) :
  load_store env (emits_in [CursesRaw; CursSet 0; ScrClear] w)
  = (Ret (entries, idx), w1) ->
  (forall (p : profile) (rest : list profile),
     entries = p :: rest -> idx = -1 ->
     application env true filename w
     = send_file env filename (ssh_ip p) (ssh_user p) (ssh_password p)
                 (remote_path p)
                 (emits_in [CursesEndwin; Print (copying_message filename p)] w1)) /\
  (entries = [] ->
   application env true filename w
   = (Ret tt,
      emits_in [CursesEndwin;
                Print "No connections found. Add a new connection."] w1)).
Proof.
  intros L. rewrite (application_quiet_run filename w w1 entries idx L). split.
  - intros p rest -> ->. cbn [Z.eqb].
    unfold application_quiet, copy_to, bind at 1, emit.
    rewrite py_list_index_head. cbn [lift]. unfold bind, ret, print, emit.
    f_equal. worlds.
  - intros ->. unfold application_quiet, bind, print, emit.
    f_equal. worlds.
Qed.

End RepeatLast.

Lemma quiet_repeat_last_witness :
  application Sample.env true "build.tar"
    (Sample.world (Some (Sample.dumps (store_to_py [Sample.p1; Sample.p2] (-1)))) [])
  = send_file Sample.env "build.tar" "10.0.0.5" "svc" "x" "/tmp/out"
      (emits_in [CursesRaw; CursSet 0; ScrClear; CursesEndwin;
                 Print (copying_message "build.tar" Sample.p1)]
         (Sample.world
            (Some (Sample.dumps (store_to_py [Sample.p1; Sample.p2] (-1)))) [])).
Proof.
  refine (proj1 (quiet_repeat_last Sample.env "build.tar"
           (Sample.world
              (Some (Sample.dumps (store_to_py [Sample.p1; Sample.p2] (-1)))) [])
           (emits_in [CursesRaw; CursSet 0; ScrClear]
              (Sample.world
                 (Some (Sample.dumps (store_to_py [Sample.p1; Sample.p2] (-1)))) []))
           [Sample.p1; Sample.p2] (-1) _) Sample.p1 [Sample.p2] _ _);
    [vm_compute; reflexivity | reflexivity | reflexivity].
Defined.

(** ** The driver loop *)

Lemma halt_other_type {A B : Type} (h : halt) :
  @Halt A h <> Halt OutOfFuel -> @Halt B h <> Halt OutOfFuel.
Proof. intros F E. apply F. injection E as ->. reflexivity. Qed.

Lemma bounded_ret {A : Type} (a : A) : bounded (ret a).
Proof. intros w. split; [discriminate | reflexivity]. Qed.

Lemma bounded_raise {A : Type} (e : exn) : bounded (@raise A e).
Proof. intros w. split; [discriminate | reflexivity]. Qed.

Lemma bounded_lift {A : Type} (r : result A) : bounded (lift r).
Proof. destruct r; [apply bounded_ret | apply bounded_raise]. Qed.

Lemma bounded_emit (ev : event) : bounded (emit ev).
Proof. intros w. split; [discriminate | reflexivity]. Qed.

Lemma bounded_emits (evs : list event) : bounded (emits evs).
Proof. intros w. split; [discriminate | reflexivity]. Qed.

Lemma bounded_getch : bounded getch.
Proof.
  intros w. unfold getch. destruct (keys w) as [|k ks] eqn:E; cbn.
  - rewrite E. split; [discriminate | reflexivity].
  - split; [discriminate | lia].
Qed.

Lemma bounded_getstr : bounded getstr.
Proof.
  intros w. unfold getstr.
  destruct (lines w); cbn; (split; [discriminate | reflexivity]).
Qed.

Lemma bounded_bind {A B : Type} (m : M A) (k : A -> M B) :
  bounded m -> (forall a, bounded (k a)) -> bounded (bind m k).
Proof.
  intros Hm Hk w. unfold bind. destruct (Hm w) as [F L].
  destruct (m w) as [[a|e|h] w1]; cbn [fst snd] in *.
  - destruct (Hk a w1) as [F1 L1]. split; [exact F1 | lia].
  - split; [discriminate | exact L].
  - split; [exact (halt_other_type h F) | exact L].
Qed.

Lemma bounded_try_except {A : Type} (m : M A) (handler : exn -> option (M A)) :
  bounded m ->
  (forall e h, handler e = Some h -> bounded h) ->
  bounded (try_except m handler).
Proof.
  intros Hm Hh w. unfold try_except. destruct (Hm w) as [F L].
  destruct (m w) as [[a|e|h] w1]; cbn [fst snd] in *;
    try (split; [assumption || discriminate | exact L]).
  destruct (handler e) as [h|] eqn:E.
  - destruct (Hh e h E w1) as [F1 L1]. split; [exact F1 | lia].
  - split; [discriminate | exact L].
Qed.

Lemma bounded_try_finally {A : Type} (m : M A) (f : M unit) :
  bounded m -> bounded f -> bounded (try_finally m f).
Proof.
  intros Hm Hf w. unfold try_finally. destruct (Hm w) as [F L].
  destruct (m w) as [[a|e|h] w1]; cbn [fst snd] in *.
  - destruct (bounded_bind f (fun _ => ret a) Hf (fun _ => bounded_ret a) w1)
      as [F1 L1]. split; [exact F1 | lia].
  - destruct (bounded_bind f (fun _ => @raise A e) Hf (fun _ => bounded_raise e) w1)
      as [F1 L1]. split; [exact F1 | lia].
  - split; [exact F | exact L].
Qed.

Create HintDb bounded.
#[local] Hint Resolve bounded_ret bounded_raise bounded_lift bounded_emit
  bounded_emits bounded_getch bounded_getstr bounded_bind bounded_try_except
  bounded_try_finally : bounded.
#[local] Hint Extern 1 (bounded (print _)) => (apply bounded_emit) : bounded.

(** The loop of the menu reads at least one key before it returns. *)
Lemma menu_loop_reads (entries : list profile) (ks : list Z) :
  forall (c : Z) (evs : list event) (e : menu_end) (rest : list Z),
    menu_loop entries c ks = (evs, e, rest) ->
    (List.length rest <= List.length ks)%nat /\
    (forall a, e = Returned a -> (List.length rest < List.length ks)%nat).
Proof.
  induction ks as [|key ks IH]; intros c evs e rest H; cbn [menu_loop] in H.
  - injection H as _ <- <-. split; [reflexivity | discriminate].
  - destruct (menu_step entries c key) as [evs0 [c'|a0|]].
    + destruct (menu_loop entries c' ks) as [[evs' e'] rest'] eqn:L.
      injection H as _ <- <-. destruct (IH _ _ _ _ L) as [I1 I2].
      cbn [List.length]. split; [lia|]. intros a Ha. specialize (I2 a Ha). lia.
    + injection H as _ _ <-. cbn [List.length]. split; [lia|]. intros; lia.
    + injection H as _ _ <-. cbn [List.length]. split; [lia|]. intros; lia.
Qed.

Lemma interactive_select_reads (entries : list profile) (last : Z) (w : World) :
  fst (interactive_select entries last w) <> Halt OutOfFuel /\
  (List.length (keys (snd (interactive_select entries last w)))
   <= List.length (keys w))%nat /\
  (forall a, fst (interactive_select entries last w) = Ret a ->
             (List.length (keys (snd (interactive_select entries last w)))
              < List.length (keys w))%nat).
Proof.
  unfold interactive_select, bind, emits, emit. cbn [keys emits_in emit_in].
  destruct (menu_loop entries last (keys w)) as [[evs e] rest] eqn:L.
  destruct (menu_loop_reads _ _ _ _ _ _ L) as [I1 I2].
  destruct e as [a| |]; cbn [fst snd keys emits_in set_keys].
  - split; [discriminate|]. split; [exact I1|]. intros _ _. apply (I2 a eq_refl).
  - split; [discriminate|]. split; [exact I1 | discriminate].
  - split; [discriminate|]. split; [exact I1 | discriminate].
Qed.

(** Settles the side condition on the handlers of a [try]. *)
Ltac bounded_handlers :=
  let e := fresh "e" in
  let h := fresh "h" in
  let E := fresh "E" in
  intros e h E; destruct e; cbn in E; try discriminate E;
  injection E as <-; auto 10 with bounded.

Section Loop.

Variable env : Env.

Lemma bounded_save_entries (entries : list profile) (last : Z) :
  bounded (save_entries env entries last).
Proof.
  intros w. rewrite save_entries_run. cbn [fst snd]. split; [discriminate|].
  unfold after_save. destruct (config_write_error w); reflexivity.
Qed.

Lemma bounded_send_file (filename ip user password remote : string) :
  bounded (send_file env filename ip user password remote).
Proof.
  unfold send_file. apply bounded_bind.
  { unfold create_ssh_client. apply bounded_try_except; [|bounded_handlers].
    apply bounded_bind; [auto with bounded | intros _].
    destruct (ssh_connect env ip user password); auto with bounded. }
  intros [c|]; [|auto with bounded].
  apply bounded_try_finally; [|auto with bounded].
  apply bounded_try_except; [|bounded_handlers].
  apply bounded_bind; [auto with bounded | intros _].
  apply bounded_bind.
  { unfold file_size. destruct (getsize env filename); auto with bounded. }
  intros size. repeat (apply bounded_bind; [auto with bounded | intros _]).
  apply bounded_try_finally; [|auto with bounded].
  apply bounded_bind.
  { unfold put. apply bounded_bind; [auto with bounded | intros _].
    destruct (scp_put env filename remote); auto with bounded. }
  intros _. auto 10 with bounded.
Qed.

#[local] Hint Resolve bounded_save_entries bounded_send_file : bounded.

Lemma bounded_application_clear : bounded (application_clear env).
Proof. unfold application_clear, clear_entries. auto 20 with bounded. Qed.

Lemma bounded_application_remove (entries : list profile) (last idx : Z) :
  bounded (application_remove env entries last idx).
Proof. unfold application_remove. auto 20 with bounded. Qed.

Lemma bounded_application_add (entries : list profile) :
  bounded (application_add env entries).
Proof. unfold application_add, add_new_entry. auto 30 with bounded. Qed.

Lemma bounded_application_select (filename : string) (entries : list profile)
  (idx : Z) :
  bounded (application_select env filename entries idx).
Proof. unfold application_select, copy_to. auto 20 with bounded. Qed.

(** The loop never runs out of fuel when given more fuel than there are
    pending keys. *)
Lemma application_loop_fuel (filename : string) (fuel : nat) :
  forall (entries : list profile) (last : Z) (w : World),
    (List.length (keys w) < fuel)%nat ->
    fst (application_loop env fuel filename entries last w) <> Halt OutOfFuel.
Proof.
  induction fuel as [|fuel IH]; intros entries last w Hf; [lia|].
  cbn [application_loop]. unfold bind at 1.
  destruct (interactive_select_reads entries last w) as [F [L S]].
  destruct (interactive_select entries last w) as [[a|e|h] w1];
    cbn [fst snd] in *; [|discriminate|exact (halt_other_type h F)].
  specialize (S a eq_refl).
  assert (step : forall (m : M (list profile * Z)),
             bounded m ->
             fst (bind m (fun st =>
                    application_loop env fuel filename (fst st) (snd st)) w1)
             <> Halt OutOfFuel).
  { intros m Hm. unfold bind. destruct (Hm w1) as [F1 L1].
    destruct (m w1) as [[st|e|h] w2]; cbn [fst snd] in *;
      [apply IH; lia | discriminate | exact (halt_other_type h F1)]. }
  destruct a.
  - apply bounded_application_select.
  - apply step, bounded_application_add.
  - apply step, bounded_application_clear.
  - apply step, bounded_application_remove.
  - apply bounded_save_entries.
Qed.

(** [application] never stops for lack of fuel: its outcome is a return,
    an exception, a wait for input or an ill-typed store. *)
Lemma application_fuel (quiet : bool) (filename : string) (w : World) :
  fst (application env quiet filename w) <> Halt OutOfFuel.
Proof.
  unfold application. unfold bind at 1 2 3, emit.
  unfold bind. set (w0 := emit_in ScrClear _).
  assert (B : bounded (load_store env)).
  { unfold load_store, load_entries, read_store.
    apply bounded_bind.
    - apply bounded_try_except; [|bounded_handlers].
      apply bounded_bind.
      { intros w'. unfold read_config. destruct (config_file w');
          (split; [discriminate | reflexivity]). }
      intros text. apply bounded_bind.
      { unfold json_load. destruct (json_loads env text); auto with bounded. }
      intros data. repeat (apply bounded_bind; [auto with bounded | intros ?]);
        try (match goal with |- bounded (if ?b then _ else _) => destruct b end);
        auto with bounded.
    - intros data. repeat (apply bounded_bind; [auto with bounded | intros ?]).
      destruct (entries_of_py _);
        [|intros w'; split; [discriminate | reflexivity]].
      match goal with |- bounded (match ?v with _ => _ end) => destruct v end;
        auto with bounded; intros w'; (split; [discriminate | reflexivity]). }
  destruct (B w0) as [F L].
  destruct (load_store env w0) as [[st|e|h] w1]; cbn [fst snd] in *;
    [|discriminate|exact (halt_other_type h F)].
  destruct quiet.
  - unfold application_quiet.
    apply bounded_bind; [auto with bounded | intros _].
    destruct (fst st); [auto with bounded|].
    apply bounded_application_select || (unfold copy_to; auto 20 with bounded).
  - apply application_loop_fuel. lia.
Qed.

End Loop.

(** ** What the driver passes to the menu *)

(** A stored index that is -1 or an index of the list gives the first
    menu a cursor inside the list. *)
Lemma cursor_ok_loaded (entries : list profile) (stored : Z) :
  -1 <= stored <= len entries - 1 ->
  cursor_ok entries (if stored =? -1 then 0 else stored).
Proof.
  intros H Hne. destruct (stored =? -1) eqn:E; zbool; [|lia].
  destruct entries as [|p rest]; [congruence|].
  rewrite len_cons. pose proof (len_nonneg rest). lia.
Qed.

Lemma cursor_ok_cleared : cursor_ok [] (-1).
Proof. intros H. congruence. Qed.

Lemma cursor_ok_removed (entries : list profile) (last idx : Z) :
  cursor_ok entries last ->
  cursor_ok (remove_entry entries idx) (reclamp (remove_entry entries idx) last).
Proof.
  intros H Hne.
  assert (E : entries <> []) by (intros ->; rewrite remove_entry_nil in Hne; congruence).
  specialize (H E).
  destruct (remove_entry entries idx) as [|p rest] eqn:R; [congruence|].
  cbn [reclamp]. rewrite len_cons. pose proof (len_nonneg rest). lia.
Qed.

(** A removal that finds nothing to remove on a non-empty list leaves
    [last_selected_idx] as the driver held it. *)
Lemma reclamp_unchanged (entries : list profile) (last : Z) :
  entries <> [] -> cursor_ok entries last -> reclamp entries last = last.
Proof.
  intros Hne H. specialize (H Hne).
  destruct entries as [|p rest]; [congruence|]. cbn [reclamp]. lia.
Qed.

Lemma cursor_ok_added (entries : list profile) (p : profile) :
  cursor_ok (entries ++ [p]) (len (entries ++ [p]) - 1).
Proof.
  intros _. unfold len. rewrite length_app. cbn [List.length]. lia.
Qed.

(** ** Two runs of the whole program *)

(** No configuration file; 'n', the four fields, then 'q': the file then
    holds the one profile, selected. *)
Example run_add_first_profile :
  let w := mkWorld None None [ord "n"; ord "q"]
                   ["10.0.0.5"; "svc"; "x"; "/tmp/out"] [] in
  let r := application Sample.env false "build.tar" w in
  fst r = Ret tt /\
  config_file (snd r) = Some (Sample.dumps (store_to_py [Sample.p1] 0)) /\
  load_store Sample.env (snd r) = (Ret ([Sample.p1], 0), snd r).
Proof. vm_compute. repeat split. Qed.

(** Three profiles, the third selected; 'c', a key to dismiss the message,
    then 'q': the third profile is gone and the index is 1. *)
Example run_remove_third_profile :
  let w := Sample.world
             (Some (Sample.dumps (store_to_py [Sample.p1; Sample.p2; Sample.p1] 2)))
             [ord "c"; 32; ord "q"] in
  let r := application Sample.env false "build.tar" w in
  fst r = Ret tt /\
  config_file (snd r) = Some (Sample.dumps (store_to_py [Sample.p1; Sample.p2] 1)).
Proof. vm_compute. repeat split. Qed.

(** * Further properties of the code *)

Lemma emits_in_app (l1 l2 : list event) (w : World) :
  emits_in l2 (emits_in l1 w) = emits_in (l1 ++ l2) w.
Proof. unfold emits_in. cbn. rewrite app_assoc. reflexivity. Qed.

(** Equality of two worlds that differ by recorded effects only, without
    unfolding the worlds. *)
Ltac traces :=
  rewrite ?emit_in_as_emits_in; rewrite ?emits_in_app; cbn [app]; reflexivity.

(** ** The store *)

Lemma assoc_get_set_same (k : string) (v : pyval) (d : list (string * pyval)) :
  assoc_get k (assoc_set k v d) = Some v.
Proof.
  induction d as [|[k0 v0] d IH]; cbn.
  - rewrite String.eqb_refl. reflexivity.
  - destruct (String.eqb k0 k) eqn:E; cbn; rewrite E; [reflexivity | exact IH].
Qed.

Lemma assoc_get_set_other (k k' : string) (v : pyval) (d : list (string * pyval)) :
  k <> k' -> assoc_get k (assoc_set k' v d) = assoc_get k d.
Proof.
  intros N. induction d as [|[k0 v0] d IH]; cbn.
  - destruct (String.eqb k' k) eqn:E; [|reflexivity].
    apply String.eqb_eq in E. congruence.
  - destruct (String.eqb k0 k') eqn:E'; cbn.
    + destruct (String.eqb k0 k) eqn:E; [|reflexivity].
      apply String.eqb_eq in E, E'. congruence.
    + destruct (String.eqb k0 k); [reflexivity | exact IH].
Qed.

Section StoreMore.

Variable env : Env.

(** X1. When the configuration file does not exist, loading the store
    returns the empty list and -1 without raising, prints the warning, and
    leaves the file absent: nothing is created at load time. *)
Theorem load_store_missing_file (w : World) :
  config_file w = None ->
  load_store env w
  = (Ret ([], -1),
     emit_in (Print ("Warning: Configuration file not found at "
                     ++ CONFIG_PATH env ++ ". Creating a new one.")) w) /\
  config_file (snd (load_store env w)) = None.
Proof.
  intros H.
  assert (E : load_store env w
              = (Ret ([], -1),
                 emit_in (Print ("Warning: Configuration file not found at "
                                 ++ CONFIG_PATH env ++ ". Creating a new one.")) w)).
  { unfold load_store, bind. rewrite (load_entries_missing_file env w H).
    reflexivity. }
  split; [exact E|]. rewrite E. exact H.
Qed.

(** X2. When the text of the configuration file does not decode, loading
    the store returns the empty list and -1 without raising and prints the
    message; the file itself keeps its text until the next save. *)
Theorem load_store_undecodable (w : World) (text : string) :
  config_file w = Some text ->
  json_loads env text = None ->
  load_store env w
  = (Ret ([], -1),
     emit_in (Print ("Error: Configuration file at " ++ CONFIG_PATH env
                     ++ " is corrupted.  Overwriting with default settings.")) w) /\
  config_file (snd (load_store env w)) = Some text.
Proof.
  intros H J.
  assert (E : load_store env w
              = (Ret ([], -1),
                 emit_in (Print ("Error: Configuration file at " ++ CONFIG_PATH env
                                 ++ " is corrupted.  Overwriting with default settings."))
                         w)).
  { unfold load_store, bind. rewrite (load_entries_undecodable env w text H J).
    reflexivity. }
  split; [exact E|]. rewrite E. exact H.
Qed.

(** X3. When the text decodes to an object, [load_entries] returns it
    without raising and without printing: a missing "entries" becomes the
    empty list, a missing "last_selected_idx" becomes -1, and every key the
    object had keeps its value. *)
Theorem load_entries_object_defaults (w : World) (text : string)
  (d : list (string * pyval)) :
  config_file w = Some text ->
  json_loads env text = Some (PDict d) ->
  exists d' : list (string * pyval),
    load_entries env w = (Ret (PDict d'), w) /\
    assoc_get "entries" d'
    = Some (match assoc_get "entries" d with Some v => v | None => PList [] end) /\
    assoc_get "last_selected_idx" d'
    = Some (match assoc_get "last_selected_idx" d with
            | Some v => v
            | None => PInt (-1)
            end) /\
    forall k v, assoc_get k d = Some v -> assoc_get k d' = Some v.
Proof.
  intros H J. unfold load_entries, try_except, bind, read_config, json_load.
  rewrite H, J. simpl.
  assert (N : "last_selected_idx" <> "entries") by discriminate.
  assert (N' : "entries" <> "last_selected_idx") by discriminate.
  assert (K : forall k k' v v' d0, assoc_get k d0 = Some v ->
                assoc_get k' d0 = None ->
                assoc_get k (assoc_set k' v' d0) = Some v).
  { intros k k' v v' d0 G G'. rewrite assoc_get_set_other; [exact G|].
    intros ->. congruence. }
  destruct (assoc_get "entries" d) as [e|] eqn:E1; simpl.
  - destruct (assoc_get "last_selected_idx" d) as [i|] eqn:E2; simpl.
    + exists d. repeat split; auto.
    + eexists. split; [reflexivity|].
      rewrite assoc_get_set_other by exact N'. rewrite assoc_get_set_same.
      repeat split; auto.
  - rewrite (assoc_get_set_other _ _ _ _ N).
    destruct (assoc_get "last_selected_idx" d) as [i|] eqn:E2; simpl.
    + eexists. split; [reflexivity|]. rewrite assoc_get_set_same.
      rewrite (assoc_get_set_other _ _ _ _ N). repeat split; auto.
    + eexists. split; [reflexivity|].
      rewrite (assoc_get_set_other _ _ _ _ N'), !assoc_get_set_same.
      repeat split; auto.
      intros k v G. apply K; [apply K; assumption|].
      rewrite (assoc_get_set_other _ _ _ _ N). exact E2.
Qed.

(** X4. When the text decodes to a value that is not an object, the
    program raises [TypeError] right after its start-up calls, in either
    mode: no menu is drawn, no key is read, and the file is not touched. *)
Theorem application_not_object (quiet : bool) (filename : string) (w : World)
  (text : string) (data : pyval) :
  config_file w = Some text ->
  json_loads env text = Some data ->
  (forall d, data <> PDict d) ->
  application env quiet filename w
  = (Raise TypeError, emits_in [CursesRaw; CursSet 0; ScrClear] w).
Proof.
  intros H J N.
  assert (L : forall w0, config_file w0 = Some text ->
                         load_store env w0 = (Raise TypeError, w0)).
  { intros w0 H0.
    unfold load_store, load_entries, try_except, bind, read_config, json_load.
    rewrite H0, J.
    destruct data as [ | b | n | bits | s | l | d ]; try reflexivity.
    - simpl. destruct (str_contains "entries" s); simpl; [|reflexivity].
      destruct (str_contains "last_selected_idx" s); reflexivity.
    - simpl. destruct (existsb (is_str "entries") l); simpl; [|reflexivity].
      destruct (existsb (is_str "last_selected_idx") l); reflexivity.
    - exfalso. apply (N d). reflexivity. }
  unfold application, bind at 1 2 3, emit. unfold bind at 1.
  rewrite L by exact H. f_equal. worlds.
Qed.

(** X5. When the file cannot be opened for writing, [save_entries] still
    returns normally: it prints the error and leaves the file exactly as it
    was. *)
Theorem save_entries_write_failure (entries : list profile) (idx : Z)
  (w : World) (msg : string) :
  config_write_error w = Some msg ->
  save_entries env entries idx w
  = (Ret tt, emit_in (Print ("Error saving to configuration file: " ++ msg)) w) /\
  config_file (snd (save_entries env entries idx w)) = config_file w.
Proof.
  intros H. rewrite save_entries_run. unfold after_save. rewrite H.
  split; reflexivity.
Qed.

(** X6. After [clear_entries], when the write succeeds and the codec reads
    back the empty store, loading gives the empty list and -1 whatever the
    file held before. *)
Theorem clear_then_load (w : World) :
  config_write_error w = None ->
  json_loads env (json_dumps env (store_to_py [] (-1)))
  = Some (store_to_py [] (-1)) ->
  (clear_entries env ;; load_store env) w
  = (Ret ([], -1),
     emit_in (Print "All connections cleared.") (after_save env [] (-1) w)).
Proof.
  intros Hw J. unfold clear_entries, bind, print, emit.
  rewrite save_entries_run.
  apply load_store_store with (text := json_dumps env (store_to_py [] (-1))).
  - unfold after_save. rewrite Hw. reflexivity.
  - exact J.
Qed.

End StoreMore.

Lemma load_store_missing_file_witness :
  load_store Sample.env (Sample.world None [])
  = (Ret ([], -1),
     emit_in (Print ("Warning: Configuration file not found at "
                     ++ CONFIG_PATH Sample.env ++ ". Creating a new one."))
             (Sample.world None [])).
Proof.
  apply (load_store_missing_file Sample.env (Sample.world None [])). reflexivity.
Defined.

Lemma load_store_undecodable_witness :
  load_store Sample.env (Sample.world (Some "{ not json") [])
  = (Ret ([], -1),
     emit_in (Print ("Error: Configuration file at " ++ CONFIG_PATH Sample.env
                     ++ " is corrupted.  Overwriting with default settings."))
             (Sample.world (Some "{ not json") [])).
Proof.
  apply (load_store_undecodable Sample.env (Sample.world (Some "{ not json") [])
                                "{ not json"); reflexivity.
Defined.

Lemma load_entries_object_defaults_witness :
  exists d' : list (string * pyval),
    load_entries Sample.env (Sample.world (Some "{}") [])
    = (Ret (PDict d'), Sample.world (Some "{}") []) /\
    assoc_get "entries" d' = Some (PList []) /\
    assoc_get "last_selected_idx" d' = Some (PInt (-1)) /\
    forall k v, assoc_get k [] = Some v -> assoc_get k d' = Some v.
Proof.
  apply (load_entries_object_defaults Sample.env (Sample.world (Some "{}") [])
                                      "{}" []); reflexivity.
Defined.

Lemma application_not_object_witness :
  application Sample.env false "build.tar" (Sample.world (Some "5") [13])
  = (Raise TypeError,
     emits_in [CursesRaw; CursSet 0; ScrClear] (Sample.world (Some "5") [13])).
Proof.
  apply (application_not_object Sample.env false "build.tar"
           (Sample.world (Some "5") [13]) "5" (PInt 5));
    [reflexivity | reflexivity | discriminate].
Defined.

Lemma save_entries_write_failure_witness :
  save_entries Sample.env [Sample.p1] 0
               (mkWorld (Some "{}") (Some "Permission denied") [] [] [])
  = (Ret tt,
     emit_in (Print ("Error saving to configuration file: " ++ "Permission denied"))
             (mkWorld (Some "{}") (Some "Permission denied") [] [] [])).
Proof.
  apply (save_entries_write_failure Sample.env [Sample.p1] 0
           (mkWorld (Some "{}") (Some "Permission denied") [] [] [])
           "Permission denied").
  reflexivity.
Defined.

Lemma clear_then_load_witness :
  (clear_entries Sample.env ;; load_store Sample.env)
    (Sample.world (Some (Sample.dumps (store_to_py [Sample.p1] 0))) [])
  = (Ret ([], -1),
     emit_in (Print "All connections cleared.")
       (after_save Sample.env [] (-1)
          (Sample.world (Some (Sample.dumps (store_to_py [Sample.p1] 0))) []))).
Proof.
  apply (clear_then_load Sample.env
           (Sample.world (Some (Sample.dumps (store_to_py [Sample.p1] 0))) []));
    [reflexivity | vm_compute; reflexivity].
Defined.

(** ** Removal of a valid index *)

(** X7. For a valid index, [remove_entry] returns a list shorter by one in
    which the profiles before the index keep their place and those after
    it move up by one: only the profile at the index is gone, and the order
    of the others is kept. *)
Theorem remove_entry_valid (entries : list profile) (idx : Z) :
  0 <= idx <= len entries - 1 ->
  len (remove_entry entries idx) = len entries - 1 /\
  forall j : nat,
    nth_error (remove_entry entries idx) j
    = if (j <? Z.to_nat idx)%nat then nth_error entries j
      else nth_error entries (S j).
Proof.
  intros H. split; [apply remove_entry_length; lia|].
  intros j. unfold remove_entry.
  assert (B : (0 <=? idx) && (idx <? len entries) = true)
    by (apply andb_true_iff; split; [apply Z.leb_le | apply Z.ltb_lt]; lia).
  rewrite B. set (n := Z.to_nat idx).
  assert (Hn : (n < List.length entries)%nat) by (unfold n, len in *; lia).
  rewrite nth_error_app, length_firstn, Nat.min_l by lia.
  destruct (j <? n)%nat eqn:E.
  - rewrite nth_error_firstn, E. reflexivity.
  - apply Nat.ltb_ge in E. rewrite nth_error_skipn. f_equal. lia.
Qed.

Lemma remove_entry_valid_witness :
  len (remove_entry [Sample.p1; Sample.p2; Sample.p1] 1)
  = len [Sample.p1; Sample.p2; Sample.p1] - 1 /\
  forall j : nat,
    nth_error (remove_entry [Sample.p1; Sample.p2; Sample.p1] 1) j
    = if (j <? Z.to_nat 1)%nat then nth_error [Sample.p1; Sample.p2; Sample.p1] j
      else nth_error [Sample.p1; Sample.p2; Sample.p1] (S j).
Proof.
  apply (remove_entry_valid [Sample.p1; Sample.p2; Sample.p1] 1).
  vm_compute. split; discriminate.
Defined.

(** ** The transfer client *)

Section TransferMore.

Variable env : Env.

(** X8. [create_ssh_client] makes one connection attempt and never lets an
    [Exception] out: on success it returns the client; on any [Exception]
    of the transport it prints one message and returns [None]. *)
Theorem create_ssh_client_reports (server user password : string) (w : World) :
  (ssh_connect env server user password = Connected ->
   create_ssh_client env server user password w
   = (Ret (Some (SSHClient server)),
      emits_in [SshConnect server user password 10] w)) /\
  (forall e : exn,
     ssh_connect env server user password = ConnectRaises e ->
     is_Exception e = true ->
     exists msg : string,
       create_ssh_client env server user password w
       = (Ret None, emits_in [SshConnect server user password 10; Print msg] w)).
Proof.
  split.
  - intros Hc. unfold create_ssh_client, try_except, bind, emit, ret.
    rewrite Hc. reflexivity.
  - intros e Hc He.
    unfold create_ssh_client, try_except, bind, print, emit, ret, raise.
    rewrite Hc.
    destruct e; try discriminate He; cbv beta iota delta [is_Exception];
      (eexists; f_equal; traces).
Qed.

(** X9. Once the session is open, [send_file] always closes it: whatever
    the local file and the SCP transfer do, the connection attempt is the
    first effect and the close of the session the last, and an SCP channel
    that was opened is closed in between. *)
Theorem send_file_closes_session (filename ip user password remote : string)
  (w : World) :
  ssh_connect env ip user password = Connected ->
  exists evs : list event,
    trace (snd (send_file env filename ip user password remote w))
    = (trace w ++ SshConnect ip user password 10 :: evs ++ [SshClose])%list /\
    (In ScpOpen evs -> In ScpClose evs).
Proof.
  intros Hc.
  unfold send_file, create_ssh_client, file_size, put, try_except, try_finally,
    bind, print, emit, ret, raise.
  rewrite Hc. cbv beta iota.
  destruct (getsize env filename) as [size|]; cbv beta iota;
    [destruct (scp_put env filename remote) as [|e]; cbv beta iota;
     [|destruct e; cbv beta iota delta [is_Exception]]|];
    cbn [snd trace emit_in]; rewrite <- ?app_assoc; cbn [app];
    (eexists; split;
     [ first [ instantiate (1 := [_; _; _; _; _; _; _; _]); reflexivity
             | instantiate (1 := [_; _; _; _; _; _; _]); reflexivity
             | instantiate (1 := [_; _; _; _; _; _]); reflexivity
             | instantiate (1 := [_; _; _]); reflexivity ]
     | cbn; try tauto ]).
  intros [H|[H|[H|[]]]]; discriminate H.
Qed.

(** X10. When the session opens, the local file exists and the SCP
    transfer succeeds, [send_file] returns normally after moving the
    progress bar to the size of the file, writing the success line and
    closing the SCP channel and then the session. *)
Theorem send_file_success (filename ip user password remote : string)
  (size : Z) (w : World) :
  ssh_connect env ip user password = Connected ->
  getsize env filename = Some size ->
  scp_put env filename remote = PutOk ->
  send_file env filename ip user password remote w
  = (Ret tt,
     emits_in [SshConnect ip user password 10; SshGetTransport; GetSize filename;
               ProgressBarOpen size filename; ScpOpen; ScpPut filename remote;
               ProgressBarDone size;
               TqdmWrite ("File '" ++ filename ++ "' successfully uploaded to "
                          ++ remote ++ " on " ++ ip);
               ScpClose; SshClose] w).
Proof.
  intros Hc Hs Hp.
  unfold send_file, create_ssh_client, file_size, put, try_except, try_finally,
    bind, print, emit, ret, raise.
  rewrite Hc, Hs, Hp. cbv beta iota. f_equal. traces.
Qed.

(** X11. When the SCP transfer raises an [Exception], [send_file] does not
    let it out: it closes the SCP channel, prints the report for that
    exception (with a traceback for the unexpected ones), closes the
    session and returns; the bar is not completed and no success line is
    written. *)
Theorem send_file_put_failure (filename ip user password remote : string)
  (size : Z) (e : exn) (w : World) :
  ssh_connect env ip user password = Connected ->
  getsize env filename = Some size ->
  scp_put env filename remote = PutRaises e ->
  is_Exception e = true ->
  send_file env filename ip user password remote w
  = (Ret tt,
     emits_in ([SshConnect ip user password 10; SshGetTransport; GetSize filename;
                ProgressBarOpen size filename; ScpOpen; ScpPut filename remote;
                ScpClose]
               ++ match e with
                  | FileNotFoundError => [Print (not_found_message filename)]
                  | AuthenticationException =>
                      [Print "Authentication failed, please verify your SSH credentials."]
                  | _ => [Print ("An error occurred: " ++ exn_str e); TracebackPrint]
                  end
               ++ [SshClose]) w).
Proof.
  intros Hc Hs Hp He.
  unfold send_file, create_ssh_client, file_size, put, try_except, try_finally,
    bind, print, emit, ret, raise.
  rewrite Hc, Hs, Hp. cbv beta iota.
  destruct e; try discriminate He; cbv beta iota delta [is_Exception];
    (f_equal; traces).
Qed.

End TransferMore.

Lemma create_ssh_client_reports_witness :
  create_ssh_client Sample.env "10.0.0.5" "svc" "x" (Sample.world None [])
  = (Ret (Some (SSHClient "10.0.0.5")),
     emits_in [SshConnect "10.0.0.5" "svc" "x" 10] (Sample.world None [])).
Proof.
  apply (create_ssh_client_reports Sample.env "10.0.0.5" "svc" "x"
                                   (Sample.world None [])).
  reflexivity.
Defined.

Lemma send_file_closes_session_witness :
  exists evs : list event,
    trace (snd (send_file Sample.env "build.tar" "10.0.0.5" "svc" "x" "/tmp/out"
                          (Sample.world None [])))
    = (trace (Sample.world None [])
       ++ SshConnect "10.0.0.5" "svc" "x" 10 :: evs ++ [SshClose])%list /\
    (In ScpOpen evs -> In ScpClose evs).
Proof.
  apply (send_file_closes_session Sample.env "build.tar" "10.0.0.5" "svc" "x"
                                  "/tmp/out" (Sample.world None [])).
  reflexivity.
Defined.

Lemma send_file_success_witness :
  send_file Sample.env "build.tar" "10.0.0.5" "svc" "x" "/tmp/out"
            (Sample.world None [])
  = (Ret tt,
     emits_in [SshConnect "10.0.0.5" "svc" "x" 10; SshGetTransport;
               GetSize "build.tar"; ProgressBarOpen 2048 "build.tar"; ScpOpen;
               ScpPut "build.tar" "/tmp/out"; ProgressBarDone 2048;
               TqdmWrite ("File '" ++ "build.tar" ++ "' successfully uploaded to "
                          ++ "/tmp/out" ++ " on " ++ "10.0.0.5");
               ScpClose; SshClose] (Sample.world None [])).
Proof.
  apply (send_file_success Sample.env "build.tar" "10.0.0.5" "svc" "x" "/tmp/out"
                           2048 (Sample.world None []));
    reflexivity.
Defined.

Lemma send_file_put_failure_witness :
  let env := mkEnv "SendDeployV2.json" Sample.loads Sample.dumps
                   (fun _ _ _ => Connected) (fun _ => Some 2048)
                   (fun _ _ => PutRaises (OtherException "Broken pipe")) in
  send_file env "build.tar" "10.0.0.5" "svc" "x" "/tmp/out" (Sample.world None [])
  = (Ret tt,
     emits_in [SshConnect "10.0.0.5" "svc" "x" 10; SshGetTransport;
               GetSize "build.tar"; ProgressBarOpen 2048 "build.tar"; ScpOpen;
               ScpPut "build.tar" "/tmp/out"; ScpClose;
               Print ("An error occurred: " ++ "Broken pipe"); TracebackPrint;
               SshClose] (Sample.world None [])).
Proof.
  intros env.
  apply (send_file_put_failure env "build.tar" "10.0.0.5" "svc" "x" "/tmp/out"
                               2048 (OtherException "Broken pipe")
                               (Sample.world None []));
    reflexivity.
Defined.

(** ** The menu *)

Lemma on_key_enter (entries : list profile) (c : Z) :
  on_key entries c 13 = Return (Selected c).
Proof. reflexivity. Qed.

Lemma on_key_down (entries : list profile) (c : Z) :
  on_key entries c KEY_DOWN
  = Stay (if c <? len entries - 1 then c + 1 else c).
Proof. reflexivity. Qed.

Lemma on_key_up (entries : list profile) (c : Z) :
  on_key entries c KEY_UP = Stay (if c >? 0 then c - 1 else c).
Proof. reflexivity. Qed.

Lemma menu_loop_stay (entries : list profile) (c key c' : Z) (ks : list Z) :
  on_key entries c key = Stay c' ->
  menu_loop entries c (key :: ks)
  = (let '(evs, e, rest) := menu_loop entries c' ks in
     ((display_menu entries c' ++ evs)%list, e, rest)).
Proof.
  intros H. cbn [menu_loop]. unfold menu_step. rewrite H. reflexivity.
Qed.

(** X12. From a cursor inside the list, a run of Down keys followed by
    Enter selects the cursor moved down by that many rows and stopped at
    the last row, and a run of Up keys followed by Enter selects the cursor
    moved up and stopped at the first row; the keys after Enter stay
    unread. *)
Theorem menu_loop_arrows_then_enter (entries : list profile) (n : nat)
  (rest : list Z) :
  forall c : Z,
    0 <= c <= len entries - 1 ->
    (exists evs,
       menu_loop entries c (repeat KEY_DOWN n ++ 13 :: rest)
       = (evs, Returned (Selected (Z.min (c + Z.of_nat n) (len entries - 1))),
          rest)) /\
    (exists evs,
       menu_loop entries c (repeat KEY_UP n ++ 13 :: rest)
       = (evs, Returned (Selected (Z.max (c - Z.of_nat n) 0)), rest)).
Proof.
  induction n as [|n IH]; intros c Hc.
  - cbn [repeat app]. split; exists [];
      cbn [menu_loop]; unfold menu_step; rewrite on_key_enter.
    + replace (Z.min (c + Z.of_nat 0) (len entries - 1)) with c by lia.
      reflexivity.
    + replace (Z.max (c - Z.of_nat 0) 0) with c by lia. reflexivity.
  - cbn [repeat app]. split.
    + rewrite (menu_loop_stay _ _ _ _ _ (on_key_down entries c)).
      destruct (c <? len entries - 1) eqn:E; zbool.
      * destruct (proj1 (IH (c + 1) ltac:(lia))) as [evs Hevs].
        rewrite Hevs. eexists.
        replace (Z.min (c + Z.of_nat (S n)) (len entries - 1))
          with (Z.min (c + 1 + Z.of_nat n) (len entries - 1)) by lia.
        reflexivity.
      * destruct (proj1 (IH c Hc)) as [evs Hevs].
        rewrite Hevs. eexists.
        replace (Z.min (c + Z.of_nat (S n)) (len entries - 1))
          with (Z.min (c + Z.of_nat n) (len entries - 1)) by lia.
        reflexivity.
    + rewrite (menu_loop_stay _ _ _ _ _ (on_key_up entries c)).
      destruct (c >? 0) eqn:E; zbool.
      * destruct (proj2 (IH (c - 1) ltac:(lia))) as [evs Hevs].
        rewrite Hevs. eexists.
        replace (Z.max (c - Z.of_nat (S n)) 0)
          with (Z.max (c - 1 - Z.of_nat n) 0) by lia.
        reflexivity.
      * destruct (proj2 (IH c Hc)) as [evs Hevs].
        rewrite Hevs. eexists.
        replace (Z.max (c - Z.of_nat (S n)) 0)
          with (Z.max (c - Z.of_nat n) 0) by lia.
        reflexivity.
Qed.

Lemma menu_loop_arrows_then_enter_witness :
  exists evs,
    menu_loop [Sample.p1; Sample.p2] 0 (repeat KEY_DOWN 5 ++ 13 :: [ord "q"])
    = (evs, Returned (Selected (Z.min (0 + Z.of_nat 5)
                                      (len [Sample.p1; Sample.p2] - 1))),
       [ord "q"]).
Proof.
  apply (menu_loop_arrows_then_enter [Sample.p1; Sample.p2] 5 [ord "q"] 0).
  vm_compute. split; discriminate.
Defined.

Lemma menu_rows_highlight (entries : list profile) (c : Z) :
  forall (i y x : Z) (s : string),
    In (ScrAddstr y x s A_REVERSE) (menu_rows i c entries) <->
    exists p : profile,
      i <= c /\ nth_error entries (Z.to_nat (c - i)) = Some p /\
      y = 2 + c /\ x = 2 /\ s = "> " ++ entry_line p.
Proof.
  induction entries as [|entry rest IH]; intros i y x s; cbn [menu_rows In].
  - split; [tauto|]. intros [p [_ [H _]]]. destruct (Z.to_nat (c - i)); discriminate.
  - rewrite IH. destruct (i =? c) eqn:E; zbool.
    + subst i. split.
      * intros [H|[p [H _]]]; [|lia]. injection H as <- <- <-.
        exists entry. rewrite Z.sub_diag. repeat split; try reflexivity; lia.
      * intros [p [_ [H [-> [-> ->]]]]]. rewrite Z.sub_diag in H.
        cbn in H. injection H as ->. left. reflexivity.
    + split.
      * intros [H|[p [H1 [H2 H3]]]]; [discriminate|].
        exists p. split; [lia|]. split; [|exact H3].
        replace (Z.to_nat (c - i)) with (S (Z.to_nat (c - (i + 1)))) by lia.
        exact H2.
      * intros [p [H1 [H2 H3]]]. right. exists p. split; [lia|].
        split; [|exact H3].
        replace (Z.to_nat (c - i)) with (S (Z.to_nat (c - (i + 1)))) in H2 by lia.
        exact H2.
Qed.

(** X13. A redraw highlights a row exactly when the cursor is an index of
    the list, and then only the row of that profile: the reversed line is
    at screen row [2 + cursor], column 2, and shows the profile at the
    cursor behind the marker. *)
Theorem display_menu_highlight (entries : list profile) (c y x : Z) (s : string) :
  In (ScrAddstr y x s A_REVERSE) (display_menu entries c) <->
  exists p : profile,
    0 <= c /\ nth_error entries (Z.to_nat c) = Some p /\
    y = 2 + c /\ x = 2 /\ s = "> " ++ entry_line p.
Proof.
  unfold display_menu. rewrite !in_app_iff, menu_rows_highlight, Z.sub_0_r.
  split.
  - intros [H|[H|H]]; [|exact H|].
    + cbn in H. destruct entries; destruct H as [H|[H|[]]]; discriminate H.
    + cbn in H. repeat (destruct H as [H|H]; [discriminate H|]). destruct H.
  - intros H. right. left. exact H.
Qed.

(** X14. The menu never shows a password: the redraw is the same for two
    lists that differ in the passwords only. *)
Theorem display_menu_hides_password (password : string) (entries : list profile)
  (c : Z) :
  display_menu (map (with_password password) entries) c = display_menu entries c.
Proof.
  assert (R : forall i, menu_rows i c (map (with_password password) entries)
                        = menu_rows i c entries).
  { induction entries as [|entry rest IH]; intros i; [reflexivity|].
    cbn [map menu_rows]. rewrite IH. reflexivity. }
  unfold display_menu. rewrite R. unfold len. rewrite length_map.
  destruct entries; reflexivity.
Qed.

Lemma menu_rows_no_refresh (entries : list profile) (c : Z) :
  forall i, filter is_refresh (menu_rows i c entries) = [].
Proof.
  induction entries as [|entry rest IH]; intros i; [reflexivity|].
  cbn [menu_rows filter]. destruct (i =? c); cbn [is_refresh]; apply IH.
Qed.

Lemma display_menu_one_refresh (entries : list profile) (c : Z) :
  List.length (filter is_refresh (display_menu entries c)) = 1%nat.
Proof.
  unfold display_menu. rewrite !filter_app, menu_rows_no_refresh.
  destruct entries; reflexivity.
Qed.

(** X15. The loop of the menu redraws once for every key it reads that
    does not end it: the keys given are the keys left unread, the keys
    that caused a redraw and, unless the loop is still waiting, the one key
    that ended it. *)
Theorem menu_loop_redraws (entries : list profile) (ks : list Z) :
  forall (c : Z) (evs : list event) (e : menu_end) (rest : list Z),
    menu_loop entries c ks = (evs, e, rest) ->
    (List.length (filter is_refresh evs) + List.length rest
     + match e with Waiting => 0 | _ => 1 end
     = List.length ks)%nat.
Proof.
  induction ks as [|key ks IH]; intros c evs e rest H; cbn [menu_loop] in H.
  - injection H as <- <- <-. reflexivity.
  - unfold menu_step in H. destruct (on_key entries c key) as [c'|a|].
    + destruct (menu_loop entries c' ks) as [[evs' e'] rest'] eqn:L.
      pose proof (display_menu_one_refresh entries c') as D.
      remember (display_menu entries c') as dm eqn:Hdm. clear Hdm.
      injection H as <- <- <-. specialize (IH _ _ _ _ L).
      rewrite filter_app, length_app, D.
      cbn [List.length]. lia.
    + injection H as <- <- <-. cbn [filter List.length]. lia.
    + injection H as <- <- <-. cbn [filter List.length]. lia.
Qed.

Lemma menu_loop_redraws_witness :
  let ks := [KEY_DOWN; 120; ord "q"; 13] in
  let rest := [13] in
  exists evs,
    menu_loop [Sample.p1] 0 ks = (evs, Returned Quit, rest) /\
    (List.length (filter is_refresh evs) + List.length rest + 1
     = List.length ks)%nat.
Proof.
  intros ks rest. eexists. split; [reflexivity|].
  apply (menu_loop_redraws [Sample.p1] ks 0 _ (Returned Quit) rest).
  reflexivity.
Defined.

(** ** Adding a profile *)

Section StripFacts.

Variable w1 : ascii -> bool.
Variable w2 : ascii -> ascii -> bool.
Variable w3 : ascii -> ascii -> ascii -> bool.

Lemma strip_front_spec (n : nat) :
  forall l,
    (List.length l <= n)%nat ->
    clean_front w1 w2 w3 (strip_front w1 w2 w3 l) /\
    exists pre, l = (pre ++ strip_front w1 w2 w3 l)%list.
Proof.
  induction n as [|n IH]; intros l Hn.
  - destruct l; [|cbn in Hn; lia]. split; [exact I | exists []; reflexivity].
  - destruct l as [|a r1]; [split; [exact I | exists []; reflexivity]|].
    cbn [List.length] in Hn. cbn [strip_front].
    destruct (w1 a) eqn:E1.
    { destruct (IH r1 ltac:(lia)) as [C [pre P]]. split; [exact C|].
      exists (a :: pre). cbn [app]. rewrite <- P. reflexivity. }
    destruct r1 as [|b r2].
    { split; [cbn; auto | exists []; reflexivity]. }
    cbn [List.length] in Hn.
    destruct (w2 a b) eqn:E2.
    { destruct (IH r2 ltac:(lia)) as [C [pre P]]. split; [exact C|].
      exists (a :: b :: pre). cbn [app]. rewrite <- P. reflexivity. }
    destruct r2 as [|c r3].
    { split; [cbn; auto | exists []; reflexivity]. }
    cbn [List.length] in Hn.
    destruct (w3 a b c) eqn:E3.
    { destruct (IH r3 ltac:(lia)) as [C [pre P]]. split; [exact C|].
      exists (a :: b :: c :: pre). cbn [app]. rewrite <- P. reflexivity. }
    split; [cbn; auto | exists []; reflexivity].
Qed.

(** What is left has nothing to remove at the front. *)
Lemma strip_front_clean (l : list ascii) :
  clean_front w1 w2 w3 (strip_front w1 w2 w3 l).
Proof. apply (strip_front_spec (List.length l) l). lia. Qed.

(** What is left is the end of what was given. *)
Lemma strip_front_suffix (l : list ascii) :
  exists pre, l = (pre ++ strip_front w1 w2 w3 l)%list.
Proof. apply (strip_front_spec (List.length l) l). lia. Qed.

Lemma clean_front_fixed (l : list ascii) :
  clean_front w1 w2 w3 l -> strip_front w1 w2 w3 l = l.
Proof.
  destruct l as [|a [|b [|c r]]]; cbn.
  - reflexivity.
  - intros [-> _]. reflexivity.
  - intros [-> [-> _]]. reflexivity.
  - intros [-> [-> ->]]. reflexivity.
Qed.

Lemma clean_front_prefix (p q : list ascii) :
  clean_front w1 w2 w3 (p ++ q)%list -> clean_front w1 w2 w3 p.
Proof. destruct p as [|a [|b [|c r]]]; cbn; tauto. Qed.

End StripFacts.

(** The stripped bytes: nothing is left to remove at either end. *)
Lemma strip_chars_ends (l : list ascii) :
  let r := rev (rstrip_rev (rev (lstrip l))) in
  lstrip r = r /\ rstrip_rev (rev r) = rev r.
Proof.
  cbn zeta. set (a := lstrip l). set (b := rstrip_rev (rev a)).
  assert (Hb : rstrip_rev b = b)
    by (apply clean_front_fixed, strip_front_clean).
  split; [|rewrite rev_involutive; exact Hb].
  apply clean_front_fixed.
  destruct (strip_front_suffix is_space (fun b a => is_space2 a b)
              (fun c b a => is_space3 a b c) (rev a)) as [pre Hpre].
  fold rstrip_rev in Hpre. fold b in Hpre.
  assert (Ha : a = (rev b ++ rev pre)%list).
  { rewrite <- (rev_involutive a), Hpre, rev_app_distr. reflexivity. }
  apply (clean_front_prefix _ _ _ (rev b) (rev pre)). rewrite <- Ha.
  apply strip_front_clean.
Qed.

(** Stripping a stripped string changes nothing. *)
Lemma py_strip_idempotent (s : string) : py_strip (py_strip s) = py_strip s.
Proof.
  unfold py_strip. set (l := list_ascii_of_string s).
  destruct (strip_chars_ends l) as [H1 H2]. cbn zeta in H1, H2.
  rewrite !list_ascii_of_string_of_list_ascii.
  rewrite H1, H2, rev_involutive. reflexivity.
Qed.

(** A no-break space (U+00A0) in front, a next-line (U+0085) and an
    ideographic space (U+3000) behind are removed with the ASCII blanks;
    a zero-width space (U+200B) is not whitespace and stays. *)
Example py_strip_beyond_ascii :
  py_strip (string_of_list_ascii
              ["194"; "160"; " "; "a"; "226"; "128"; "139"; "b"; "194"; "133";
               "009"; "227"; "128"; "128"]%char)
  = string_of_list_ascii ["a"; "226"; "128"; "139"; "b"]%char.
Proof. vm_compute. reflexivity. Qed.

Lemma getstr_run (w : World) (l : string) (ls : list string) :
  lines w = l :: ls -> getstr w = (Ret l, set_lines ls w).
Proof. intros H. unfold getstr. rewrite H. reflexivity. Qed.

Lemma set_lines_emit_in (ls : list string) (ev : event) (w : World) :
  set_lines ls (emit_in ev w) = emit_in ev (set_lines ls w).
Proof. reflexivity. Qed.

Lemma set_lines_set_lines (l1 l2 : list string) (w : World) :
  set_lines l1 (set_lines l2 w) = set_lines l1 w.
Proof. reflexivity. Qed.

Lemma add_new_entry_run (w : World) (ip user password remote : string)
  (ls : list string) :
  lines w = ip :: user :: password :: remote :: ls ->
  add_new_entry w
  = (Ret (mkProfile (py_strip ip) (py_strip user) (py_strip password)
                    (py_strip remote)),
     emits_in add_new_entry_screen (set_lines ls w)).
Proof.
  intros H. unfold add_new_entry, bind, emit, getstr, ret.
  cbn [lines emit_in set_lines]. rewrite H. cbn [lines emit_in set_lines].
  f_equal. rewrite !set_lines_emit_in, !set_lines_set_lines.
  unfold add_new_entry_screen. traces.
Qed.

(** X18. Whatever is typed, a profile that [add_new_entry] returns has
    no whitespace at the start or at the end of any of its four fields,
    the password included: stripping any field again changes nothing. *)
Theorem add_new_entry_fields_stripped (w w' : World) (p : profile) :
  add_new_entry w = (Ret p, w') ->
  py_strip (ssh_ip p) = ssh_ip p /\
  py_strip (ssh_user p) = ssh_user p /\
  py_strip (ssh_password p) = ssh_password p /\
  py_strip (remote_path p) = remote_path p.
Proof.
  intros H.
  destruct (lines w) as [|a [|b [|c [|d ls]]]] eqn:E.
  5: { rewrite (add_new_entry_run w a b c d ls E) in H. injection H as <- _.
       cbn [ssh_ip ssh_user ssh_password remote_path].
       repeat split; apply py_strip_idempotent. }
  all: exfalso; revert H;
    unfold add_new_entry, bind, emit, getstr, ret;
    cbn [lines emit_in set_lines]; rewrite E;
    cbn [lines emit_in set_lines]; discriminate.
Qed.

Lemma add_new_entry_fields_stripped_witness :
  let w := mkWorld None None [] ["  10.0.0.5 "; "svc"; " x "; "/tmp/out "] [] in
  py_strip (ssh_ip Sample.p1) = ssh_ip Sample.p1 /\
  py_strip (ssh_user Sample.p1) = ssh_user Sample.p1 /\
  py_strip (ssh_password Sample.p1) = ssh_password Sample.p1 /\
  py_strip (remote_path Sample.p1) = remote_path Sample.p1.
Proof.
  intros w.
  apply (add_new_entry_fields_stripped w
           (emits_in add_new_entry_screen (set_lines [] w)) Sample.p1).
  reflexivity.
Defined.

Section AddMore.

Variable env : Env.



End AddMore.



(** ** The driver *)

Lemma nth_error_len {A : Type} (l : list A) (n : nat) (a : A) :
  nth_error l n = Some a -> Z.of_nat n < len l.
Proof.
  intros H. unfold len. apply Nat2Z.inj_lt. apply nth_error_Some. congruence.
Qed.

(** [entries[idx]] for an index that is in the list. *)
Lemma py_list_index_in_range {A : Type} (l : list A) (idx : Z) (a : A) :
  0 <= idx -> nth_error l (Z.to_nat idx) = Some a -> py_list_index l idx = Ok a.
Proof.
  intros H0 H. pose proof (nth_error_len l _ a H) as Hl.
  unfold py_list_index.
  assert (E : (idx <? 0) = false) by (apply Z.ltb_ge; lia). rewrite E.
  assert (B : (0 <=? idx) && (idx <? len l) = true)
    by (apply andb_true_iff; split; [apply Z.leb_le | apply Z.ltb_lt]; lia).
  rewrite B, H. reflexivity.
Qed.

(** [entries[idx]] for an index beyond either end of the list. *)
Lemma py_list_index_out_of_range {A : Type} (l : list A) (idx : Z) :
  len l <= idx \/ idx < - len l -> py_list_index l idx = Err IndexError.
Proof.
  intros H. pose proof (len_nonneg l) as Hl. unfold py_list_index.
  destruct (idx <? 0) eqn:E; zbool.
  - assert (B : (0 <=? idx + len l) && (idx + len l <? len l) = false).
    { apply andb_false_iff. left. apply Z.leb_gt. lia. }
    rewrite B. reflexivity.
  - assert (B : (0 <=? idx) && (idx <? len l) = false).
    { apply andb_false_iff. right. apply Z.ltb_ge. lia. }
    rewrite B. reflexivity.
Qed.

Section DriverMore.

Variable env : Env.

(** X19. When Enter chooses an index of the list, the driver first saves
    the list with that index, then leaves curses mode, then prints the
    chosen profile, and only then starts the transfer, with the fields of
    the profile at that index. *)
Theorem application_select_valid (filename : string) (entries : list profile)
  (idx : Z) (p : profile) (w : World) :
  0 <= idx ->
  nth_error entries (Z.to_nat idx) = Some p ->
  application_select env filename entries idx w
  = send_file env filename (ssh_ip p) (ssh_user p) (ssh_password p)
              (remote_path p)
              (emits_in [CursesEndwin; Print (copying_message filename p)]
                        (after_save env entries idx w)).
Proof.
  intros H0 H. unfold application_select, copy_to, bind at 1.
  rewrite save_entries_run. unfold bind at 1, emit.
  rewrite (py_list_index_in_range entries idx p H0 H). cbn [lift].
  unfold bind, ret, print, emit. f_equal. traces.
Qed.

(** X20. When Enter returns an index that is beyond either end of the list
    (every index on an empty list), the driver has already saved that
    index when [entries[idx]] raises [IndexError]: the file is rewritten,
    curses mode is left, nothing is printed and no transfer starts. *)
Theorem application_select_out_of_range (filename : string)
  (entries : list profile) (idx : Z) (w : World) :
  len entries <= idx \/ idx < - len entries ->
  application_select env filename entries idx w
  = (Raise IndexError, emit_in CursesEndwin (after_save env entries idx w)).
Proof.
  intros H. unfold application_select, copy_to, bind at 1.
  rewrite save_entries_run. unfold bind at 1, emit.
  rewrite (py_list_index_out_of_range entries idx H). reflexivity.
Qed.

(** X21. Quitting the menu at once rewrites the configuration file: the
    loaded list is saved with the loaded index, except that a loaded -1 is
    saved as 0; after a missing file this creates the file. *)
Theorem application_quit_saves (filename : string) (w w1 : World)
  (entries : list profile) (idx : Z) (ks : list Z) :
  load_store env (emits_in [CursesRaw; CursSet 0; ScrClear] w)
  = (Ret (entries, idx), w1) ->
  keys w1 = ord "q" :: ks ->
  let idx' := if idx =? -1 then 0 else idx in
  application env false filename w
  = (Ret tt,
     after_save env entries idx'
       (set_keys ks (emits_in (display_menu entries idx' ++ [ScrKeypad true]) w1))).
Proof.
  intros L K idx'. unfold application, bind at 1 2 3, emit.
  assert (W : emit_in ScrClear (emit_in (CursSet 0) (emit_in CursesRaw w))
              = emits_in [CursesRaw; CursSet 0; ScrClear] w) by traces.
  rewrite W. unfold bind at 1. rewrite L. cbn [fst snd]. fold idx'.
  cbn [application_loop]. unfold bind at 1.
  assert (I : interactive_select entries idx' w1
              = (Ret Quit,
                 set_keys ks (emits_in (display_menu entries idx' ++ [ScrKeypad true]) w1))).
  { unfold interactive_select, bind, emits, emit.
    cbn [keys emits_in emit_in]. rewrite K. cbn [menu_loop].
    unfold menu_step. replace (on_key entries idx' (ord "q")) with (Return Quit)
      by reflexivity.
    f_equal. unfold set_keys, emits_in, emit_in.
    cbn [config_file config_write_error keys lines trace].
    rewrite <- ?app_assoc, ?app_nil_r. reflexivity. }
  rewrite I. apply save_entries_run.
Qed.

(** X22. In repeat-last mode, a stored index that is beyond either end of
    a non-empty list makes [entries[last_selected_idx]] raise [IndexError]
    as soon as curses mode is left: nothing is printed and the transport is
    never contacted. *)
Theorem application_quiet_out_of_range (filename : string) (w w1 : World)
  (entries : list profile) (idx : Z) :
  load_store env (emits_in [CursesRaw; CursSet 0; ScrClear] w)
  = (Ret (entries, idx), w1) ->
  entries <> [] ->
  len entries <= idx \/ idx < - len entries ->
  application env true filename w = (Raise IndexError, emit_in CursesEndwin w1).
Proof.
  intros L Hne H. rewrite (application_quiet_run env filename w w1 entries idx L).
  assert (E : (idx =? -1) = false).
  { apply Z.eqb_neq. intros ->. destruct entries as [|p rest]; [congruence|].
    rewrite len_cons in H. pose proof (len_nonneg rest). lia. }
  rewrite E. unfold application_quiet, copy_to, bind at 1, emit.
  destruct entries as [|p rest]; [congruence|].
  unfold bind at 1. rewrite (py_list_index_out_of_range (p :: rest) idx H).
  reflexivity.
Qed.

Lemma keys_after_save (entries : list profile) (idx : Z) (w : World) :
  keys (after_save env entries idx w) = keys w.
Proof. unfold after_save. destruct (config_write_error w); reflexivity. Qed.

Lemma application_clear_run (w : World) :
  application_clear env w
  = let w1 := emits_in [Print "All connections cleared."; ScrClear;
                        ScrAddstr 0 0 "All connections have been cleared." A_NORMAL;
                        ScrRefresh] (after_save env [] (-1) w) in
    match keys w with
    | [] => (Halt Blocked, w1)
    | k :: ks => (Ret ([], -1), after_save env [] (-1) (set_keys ks w1))
    end.
Proof.
  cbv zeta. unfold application_clear, clear_entries, bind.
  rewrite save_entries_run. unfold print, emit, getch. cbv beta iota.
  assert (W : emit_in ScrRefresh
                (emit_in (ScrAddstr 0 0 "All connections have been cleared." A_NORMAL)
                   (emit_in ScrClear
                      (emit_in (Print "All connections cleared.")
                         (after_save env [] (-1) w))))
              = emits_in [Print "All connections cleared."; ScrClear;
                          ScrAddstr 0 0 "All connections have been cleared." A_NORMAL;
                          ScrRefresh] (after_save env [] (-1) w)) by traces.
  rewrite W.
  replace (keys (emits_in [Print "All connections cleared."; ScrClear;
                           ScrAddstr 0 0 "All connections have been cleared." A_NORMAL;
                           ScrRefresh] (after_save env [] (-1) w)))
    with (keys w) by (symmetry; apply keys_after_save).
  destruct (keys w) as [|k ks]; [reflexivity|].
  rewrite save_entries_run. reflexivity.
Qed.

(** X23. The branch of 'a' writes the empty store before it waits for the
    key that dismisses its message: when the write succeeds the file holds
    the empty store whether or not a key ever comes, and with a key pending
    the branch returns the empty list and -1. *)
Theorem application_clear_persists (w : World) :
  config_write_error w = None ->
  config_file (snd (application_clear env w))
  = Some (json_dumps env (store_to_py [] (-1))) /\
  (keys w = [] -> fst (application_clear env w) = Halt Blocked) /\
  (forall k ks, keys w = k :: ks ->
                fst (application_clear env w) = Ret ([], -1)).
Proof.
  intros Hw. rewrite application_clear_run. cbv zeta.
  destruct (keys w) as [|k ks]; cbn [fst snd].
  - split; [|split; [reflexivity | discriminate]].
    unfold after_save. rewrite Hw. reflexivity.
  - split; [|split; [discriminate | reflexivity]].
    unfold after_save. cbn [config_write_error set_keys emits_in emit_in
                            set_config_file].
    rewrite Hw. cbn [config_write_error set_keys emits_in emit_in
                     set_config_file]. rewrite Hw. reflexivity.
Qed.

(** X24. The branch of 'c' saves only after the key that dismisses its
    message: when no key comes it stays waiting with the file as it was,
    although the profile is already gone from the list in memory. *)
Theorem application_remove_waits (entries : list profile) (last idx : Z)
  (w : World) :
  keys w = [] ->
  fst (application_remove env entries last idx w) = Halt Blocked /\
  config_file (snd (application_remove env entries last idx w)) = config_file w /\
  filter is_write (trace (snd (application_remove env entries last idx w)))
  = filter is_write (trace w).
Proof.
  intros K. unfold application_remove, bind, emit, getch.
  cbn [keys emit_in]. rewrite K. cbn [fst snd config_file trace emit_in].
  rewrite !filter_app. cbn [filter is_write]. rewrite !app_nil_r.
  repeat split; reflexivity.
Qed.

End DriverMore.

(** ** What the interactive loop writes *)

Lemma emits_only_bind_post {A B : Type} (P : event -> Prop) (Q : A -> Prop)
  (m : M A) (k : A -> M B) :
  emits_only P m ->
  (forall w a w', m w = (Ret a, w') -> Q a) ->
  (forall a, Q a -> emits_only P (k a)) ->
  emits_only P (bind m k).
Proof.
  intros Hm Hq Hk w. unfold bind. destruct (Hm w) as [evs [T F]].
  destruct (m w) as [[a|e|h] w1] eqn:E; cbn [snd] in *;
    try (exists evs; split; assumption).
  destruct (Hk a (Hq w a w1 E) w1) as [evs' [T' F']].
  exists (evs ++ evs')%list. split.
  - rewrite T', T, app_assoc. reflexivity.
  - apply Forall_app. split; assumption.
Qed.

Lemma read_only_getch : read_only getch.
Proof.
  intros w. unfold getch.
  destruct (keys w);
    (split; [reflexivity | exists []; split;
                           [cbn; rewrite app_nil_r; reflexivity | reflexivity]]).
Qed.

Lemma read_only_getstr : read_only getstr.
Proof.
  intros w. unfold getstr.
  destruct (lines w);
    (split; [reflexivity | exists []; split;
                           [cbn; rewrite app_nil_r; reflexivity | reflexivity]]).
Qed.

Lemma display_menu_no_write (entries : list profile) (c : Z) :
  existsb is_write (display_menu entries c) = false.
Proof.
  assert (R : forall i, existsb is_write (menu_rows i c entries) = false).
  { induction entries as [|entry rest IH]; intros i; [reflexivity|].
    cbn [menu_rows existsb]. destruct (i =? c); cbn [is_write orb]; apply IH. }
  unfold display_menu. rewrite !existsb_app, R. destruct entries; reflexivity.
Qed.

Lemma menu_loop_no_write (entries : list profile) (ks : list Z) :
  forall c, existsb is_write (fst (fst (menu_loop entries c ks))) = false.
Proof.
  induction ks as [|key ks IH]; intros c; [reflexivity|].
  cbn [menu_loop]. unfold menu_step.
  destruct (on_key entries c key) as [c'|a|]; [|reflexivity|reflexivity].
  specialize (IH c'). destruct (menu_loop entries c' ks) as [[evs e] rest].
  cbn [fst] in *. rewrite existsb_app, display_menu_no_write, IH. reflexivity.
Qed.

Lemma read_only_interactive_select (entries : list profile) (last : Z) :
  read_only (interactive_select entries last).
Proof.
  intros w. unfold interactive_select, bind, emits, emit.
  cbn [keys emits_in emit_in].
  pose proof (menu_loop_no_write entries (keys w) last) as N.
  destruct (menu_loop entries last (keys w)) as [[evs e] rest]. cbn [fst] in N.
  assert (R : forall o : outcome action,
             no_write w (snd (o, emits_in evs
                                   (set_keys rest
                                      (emit_in (ScrKeypad true)
                                         (emits_in (display_menu entries last) w)))))).
  { intros o. split; [reflexivity|].
    exists (display_menu entries last ++ [ScrKeypad true] ++ evs)%list. split.
    - cbn [snd trace emits_in set_keys emit_in]. rewrite <- !app_assoc. reflexivity.
    - rewrite !existsb_app, display_menu_no_write, N. reflexivity. }
  destruct e; apply R.
Qed.

(** The index the menu returns, on a list the cursor is an index of. *)
Lemma interactive_select_index (entries : list profile) (last : Z)
  (w w' : World) (a : action) :
  cursor_ok entries last ->
  interactive_select entries last w = (Ret a, w') ->
  match a with
  | Selected idx | RemoveRequested idx => cursor_ok entries idx
  | _ => True
  end.
Proof.
  intros C H. unfold interactive_select, bind, emits, emit in H.
  cbn [keys emits_in emit_in] in H.
  destruct (menu_loop entries last (keys w)) as [[evs e] rest] eqn:L.
  destruct e as [a'| |]; try discriminate H. injection H as <- _.
  destruct a'; try exact I; intros Hne;
    apply (menu_loop_index_in_range entries (keys w) last evs _ rest (C Hne) L).
Qed.

Section LoopWrites.

Variable env : Env.

Lemma read_only_persists_ok {A : Type} (m : M A) :
  read_only m -> emits_only (persists_ok env) m.
Proof.
  intros R w. destruct (R w) as [_ [evs [T N]]]. exists evs. split; [exact T|].
  apply Forall_forall. intros ev Hin.
  destruct ev; try exact I.
  assert (X : existsb is_write evs = true)
    by (apply existsb_exists; eexists; split; [exact Hin | reflexivity]).
  congruence.
Qed.

Lemma save_entries_persists_ok (entries : list profile) (idx : Z) :
  cursor_ok entries idx ->
  emits_only (persists_ok env) (save_entries env entries idx).
Proof.
  intros C w. rewrite save_entries_run. unfold after_save.
  destruct (config_write_error w) as [msg|].
  - exists [Print ("Error saving to configuration file: " ++ msg)].
    split; [reflexivity|]. repeat constructor.
  - exists [ConfigWrite (json_dumps env (store_to_py entries idx))].
    split; [reflexivity|]. constructor; [|constructor].
    exists entries, idx. split; [reflexivity | exact C].
Qed.

Lemma emits_only_bind {A B : Type} (m : M A) (k : A -> M B) :
  emits_only (persists_ok env) m ->
  (forall a, emits_only (persists_ok env) (k a)) ->
  emits_only (persists_ok env) (bind m k).
Proof.
  intros Hm Hk.
  apply (emits_only_bind_post (persists_ok env) (fun _ => True) m k Hm);
    [intros; exact I | intros a _; apply Hk].
Qed.

(** Each branch hands a list and an index fit for the next menu. *)
Lemma application_clear_cursor_ok (w w' : World) (st : list profile * Z) :
  application_clear env w = (Ret st, w') -> cursor_ok (fst st) (snd st).
Proof.
  rewrite application_clear_run. cbv zeta.
  destruct (keys w); [discriminate|]. intros H. injection H as <- _.
  apply cursor_ok_cleared.
Qed.

Lemma application_remove_cursor_ok (entries : list profile) (last idx : Z)
  (w w' : World) (st : list profile * Z) :
  cursor_ok entries last ->
  application_remove env entries last idx w = (Ret st, w') ->
  cursor_ok (fst st) (snd st).
Proof.
  intros C. unfold application_remove, bind, emit, getch. cbn [keys emit_in].
  destruct (keys w); [discriminate|]. rewrite save_entries_run.
  intros H. injection H as <- _. apply cursor_ok_removed. exact C.
Qed.

Lemma application_add_cursor_ok (entries : list profile) (w w' : World)
  (st : list profile * Z) :
  application_add env entries w = (Ret st, w') -> cursor_ok (fst st) (snd st).
Proof.
  unfold application_add. unfold bind at 1.
  destruct (add_new_entry w) as [[p|e|h] w1]; try discriminate.
  unfold bind. rewrite save_entries_run. intros H. injection H as <- _.
  apply cursor_ok_added.
Qed.

Lemma application_loop_persists_ok (filename : string) (fuel : nat) :
  forall (entries : list profile) (last : Z),
    cursor_ok entries last ->
    emits_only (persists_ok env) (application_loop env fuel filename entries last).
Proof.
  induction fuel as [|fuel IH]; intros entries last C.
  - apply read_only_persists_ok, read_only_halt_with.
  - cbn [application_loop].
    apply (emits_only_bind_post (persists_ok env)
             (fun a => match a with
                       | Selected idx | RemoveRequested idx => cursor_ok entries idx
                       | _ => True
                       end)).
    + apply read_only_persists_ok, read_only_interactive_select.
    + intros w a w' H. exact (interactive_select_index entries last w w' a C H).
    + intros [idx| | |idx|] Q.
      * unfold application_select.
        apply emits_only_bind; [apply save_entries_persists_ok; exact Q | intros _].
        apply read_only_persists_ok.
        apply read_only_bind; [auto with read_only | intros _].
        apply read_only_copy_to.
      * apply (emits_only_bind_post (persists_ok env)
                 (fun st => cursor_ok (fst st) (snd st))).
        -- unfold application_add.
           apply emits_only_bind.
           ++ apply read_only_persists_ok. unfold add_new_entry.
              repeat (apply read_only_bind;
                      [first [apply read_only_getstr | auto with read_only]
                      | intros ?]).
              auto with read_only.
           ++ intros p. apply emits_only_bind;
                [apply save_entries_persists_ok, cursor_ok_added | intros _].
              apply read_only_persists_ok. auto with read_only.
        -- intros w a w'. apply application_add_cursor_ok.
        -- intros st Q'. apply IH. exact Q'.
      * apply (emits_only_bind_post (persists_ok env)
                 (fun st => cursor_ok (fst st) (snd st))).
        -- unfold application_clear.
           apply emits_only_bind.
           { unfold clear_entries.
             apply emits_only_bind;
               [apply save_entries_persists_ok, cursor_ok_cleared | intros _].
             apply read_only_persists_ok. auto with read_only. }
           intros _.
           do 3 (apply emits_only_bind;
                 [apply read_only_persists_ok; auto with read_only | intros _]).
           apply emits_only_bind;
             [apply read_only_persists_ok, read_only_getch | intros _].
           apply emits_only_bind;
             [apply save_entries_persists_ok, cursor_ok_cleared | intros _].
           apply read_only_persists_ok. auto with read_only.
        -- intros w a w'. apply application_clear_cursor_ok.
        -- intros st Q'. apply IH. exact Q'.
      * apply (emits_only_bind_post (persists_ok env)
                 (fun st => cursor_ok (fst st) (snd st))).
        -- unfold application_remove.
           do 3 (apply emits_only_bind;
                 [apply read_only_persists_ok; auto with read_only | intros _]).
           apply emits_only_bind;
             [apply read_only_persists_ok, read_only_getch | intros _].
           apply emits_only_bind;
             [apply save_entries_persists_ok, cursor_ok_removed; exact C
             | intros _].
           apply read_only_persists_ok. auto with read_only.
        -- intros w a w'. apply application_remove_cursor_ok. exact C.
        -- intros st Q'. apply IH. exact Q'.
      * apply save_entries_persists_ok. exact C.
Qed.

(** X25. In interactive mode, when the loaded index is -1 or an index of
    the loaded list, every write of the configuration file made during the
    run, whatever keys and lines are typed, is the dump of a list and an
    index such that, when the list is not empty, the index is an index of
    the list. *)
Theorem application_writes_valid_index (filename : string) (w w1 : World)
  (entries : list profile) (idx : Z) :
  load_store env (emits_in [CursesRaw; CursSet 0; ScrClear] w)
  = (Ret (entries, idx), w1) ->
  -1 <= idx <= len entries - 1 ->
  exists evs : list event,
    trace (snd (application env false filename w)) = (trace w1 ++ evs)%list /\
    Forall (persists_ok env) evs.
Proof.
  intros L H. unfold application, bind at 1 2 3, emit.
  assert (W : emit_in ScrClear (emit_in (CursSet 0) (emit_in CursesRaw w))
              = emits_in [CursesRaw; CursSet 0; ScrClear] w) by traces.
  rewrite W. unfold bind at 1. rewrite L. cbn [fst snd].
  apply application_loop_persists_ok. apply cursor_ok_loaded. exact H.
Qed.

End LoopWrites.

(** ** Entry point and progress callback *)

Lemma filter_none {A : Type} (f : A -> bool) (l : list A) :
  existsb f l = false -> filter f l = [].
Proof.
  induction l as [|a l IH]; [reflexivity|]. cbn [existsb filter].
  intros N. apply orb_false_iff in N. destruct N as [N1 N2].
  rewrite N1. apply IH. exact N2.
Qed.

Section MainMore.

Variable env : Env.
Variable str_of : exn -> string.

(** X26. [main] turns what [application] does into an exit status: an
    [Exception] that escapes makes it leave curses mode, then print the
    report and the traceback, and exit with status 1; a
    [KeyboardInterrupt] makes it print the goodbye line and exit with
    status 0; a normal return ends normally.  In each case the terminal is
    restored last. *)
Theorem main_exit_status (quiet : bool) (filename : string) (w w1 : World) :
  (forall e : exn,
     application env quiet filename w = (Raise e, w1) ->
     is_Exception e = true ->
     main env str_of quiet filename w
     = (Raise (SystemExit 1),
        emits_in [CursesEndwin; Print ("Unhandled exception: " ++ str_of e);
                  TracebackPrint; CursesEndwin] w1)) /\
  (application env quiet filename w = (Raise KeyboardInterrupt, w1) ->
   main env str_of quiet filename w
   = (Raise (SystemExit 0),
      emits_in [Print (String "010"%char "Program exited by user (Ctrl+C).");
                CursesEndwin; CursesEndwin] w1)) /\
  (application env quiet filename w = (Ret tt, w1) ->
   main env str_of quiet filename w = (Ret tt, emit_in CursesEndwin w1)).
Proof.
  split; [|split].
  - intros e H He. unfold main, try_finally, try_except. rewrite H.
    destruct e; try discriminate He; cbv beta iota delta [is_Exception];
      unfold bind, print, emit, raise; (f_equal; traces).
  - intros H. unfold main, try_finally, try_except. rewrite H.
    unfold bind, print, emit, raise. f_equal. traces.
  - intros H. unfold main, try_finally, try_except. rewrite H. reflexivity.
Qed.

(** X27. Ctrl+C as the first key of the menu ends the program with exit
    status 0 without saving anything: the file and the recorded writes are
    those of the moment the store was loaded. *)
Theorem main_interrupt_at_menu (filename : string) (w w1 : World)
  (entries : list profile) (idx : Z) (ks : list Z) :
  load_store env (emits_in [CursesRaw; CursSet 0; ScrClear] w)
  = (Ret (entries, idx), w1) ->
  keys w1 = 3 :: ks ->
  let idx' := if idx =? -1 then 0 else idx in
  main env str_of false filename w
  = (Raise (SystemExit 0),
     emits_in (display_menu entries idx'
               ++ [ScrKeypad true;
                   Print (String "010"%char "Program exited by user (Ctrl+C).");
                   CursesEndwin; CursesEndwin])
              (set_keys ks w1)) /\
  config_file (snd (main env str_of false filename w)) = config_file w1 /\
  filter is_write (trace (snd (main env str_of false filename w)))
  = filter is_write (trace w1).
Proof.
  intros L K idx'.
  assert (A : application env false filename w
              = (Raise KeyboardInterrupt,
                 set_keys ks
                   (emits_in (display_menu entries idx' ++ [ScrKeypad true]) w1))).
  { unfold application, bind at 1 2 3, emit.
    assert (W : emit_in ScrClear (emit_in (CursSet 0) (emit_in CursesRaw w))
                = emits_in [CursesRaw; CursSet 0; ScrClear] w) by traces.
    rewrite W. unfold bind at 1. rewrite L. cbn [fst snd]. fold idx'.
    cbn [application_loop]. unfold bind at 1.
    unfold interactive_select, bind, emits, emit.
    cbn [keys emits_in emit_in]. rewrite K. cbn [menu_loop].
    unfold menu_step. replace (on_key entries idx' 3) with Interrupt by reflexivity.
    f_equal. unfold set_keys, emits_in, emit_in.
    cbn [config_file config_write_error keys lines trace].
    rewrite <- ?app_assoc, ?app_nil_r. reflexivity. }
  assert (E : main env str_of false filename w
              = (Raise (SystemExit 0),
                 emits_in (display_menu entries idx'
                           ++ [ScrKeypad true;
                               Print (String "010"%char
                                        "Program exited by user (Ctrl+C).");
                               CursesEndwin; CursesEndwin])
                          (set_keys ks w1))).
  { unfold main, try_finally, try_except. rewrite A.
    unfold bind, print, emit, raise. cbv beta iota.
    rewrite !emit_in_as_emits_in, !emits_in_app. cbn [app].
    f_equal. unfold set_keys, emits_in.
    cbn [config_file config_write_error keys lines trace].
    rewrite <- ?app_assoc. reflexivity. }
  split; [exact E|]. rewrite E. cbn [snd config_file trace emits_in set_keys].
  split; [reflexivity|].
  rewrite !filter_app.
  assert (D : filter is_write (display_menu entries idx') = []).
  { apply filter_none, display_menu_no_write. }
  rewrite D. cbn [filter is_write]. rewrite !app_nil_r. reflexivity.
Qed.

End MainMore.

(** X28. After any sequence of progress callbacks, the position of the
    bar is the byte count of the last callback, whatever the position was
    before; without a callback it stays where it was. *)
Theorem progress_tracks_sent (filename : string) (size : Z) (sents : list Z) :
  forall n : Z,
    fold_left (fun pos sent => progress filename size sent pos) sents n
    = last sents n.
Proof.
  assert (D : forall (l : list Z) (a d d' : Z), last (a :: l) d = last (a :: l) d').
  { induction l as [|b l IHl]; intros a d d'; [reflexivity|].
    change (last (b :: l) d = last (b :: l) d'). apply IHl. }
  induction sents as [|sent rest IH]; intros n; [reflexivity|].
  cbn [fold_left]. rewrite IH. unfold progress, tqdm_update.
  replace (n + (sent - n)) with sent by lia.
  destruct rest as [|z rest]; [reflexivity|].
  change (last (sent :: z :: rest) n) with (last (z :: rest) n). apply D.
Qed.

(** ** Instances *)

Lemma application_select_valid_witness :
  application_select Sample.env "build.tar" [Sample.p1; Sample.p2] 1
                     (Sample.world None [])
  = send_file Sample.env "build.tar" "10.0.0.6" "ops" "y" "/srv"
      (emits_in [CursesEndwin; Print (copying_message "build.tar" Sample.p2)]
         (after_save Sample.env [Sample.p1; Sample.p2] 1 (Sample.world None []))).
Proof.
  apply (application_select_valid Sample.env "build.tar" [Sample.p1; Sample.p2] 1
                                  Sample.p2 (Sample.world None []));
    [lia | reflexivity].
Defined.

Lemma application_select_out_of_range_witness :
  application_select Sample.env "build.tar" [] 0 (Sample.world None [])
  = (Raise IndexError,
     emit_in CursesEndwin (after_save Sample.env [] 0 (Sample.world None []))).
Proof.
  apply (application_select_out_of_range Sample.env "build.tar" [] 0
                                         (Sample.world None [])).
  left. vm_compute. discriminate.
Defined.

Lemma application_quit_saves_witness :
  let w := Sample.world (Some (Sample.dumps (store_to_py [Sample.p1] (-1))))
                        [ord "q"] in
  let w1 := emits_in [CursesRaw; CursSet 0; ScrClear] w in
  application Sample.env false "build.tar" w
  = (Ret tt,
     after_save Sample.env [Sample.p1] 0
       (set_keys [] (emits_in (display_menu [Sample.p1] 0 ++ [ScrKeypad true]) w1))).
Proof.
  intros w w1.
  apply (application_quit_saves Sample.env "build.tar" w w1 [Sample.p1] (-1) []);
    [vm_compute; reflexivity | reflexivity].
Defined.

Lemma application_quiet_out_of_range_witness :
  let w := Sample.world (Some (Sample.dumps (store_to_py [Sample.p1] 5))) [] in
  application Sample.env true "build.tar" w
  = (Raise IndexError,
     emit_in CursesEndwin (emits_in [CursesRaw; CursSet 0; ScrClear] w)).
Proof.
  intros w.
  apply (application_quiet_out_of_range Sample.env "build.tar" w
           (emits_in [CursesRaw; CursSet 0; ScrClear] w) [Sample.p1] 5);
    [vm_compute; reflexivity | discriminate | left; vm_compute; discriminate].
Defined.

Lemma application_clear_persists_witness :
  config_file (snd (application_clear Sample.env (Sample.world None [])))
  = Some (json_dumps Sample.env (store_to_py [] (-1))).
Proof.
  apply (application_clear_persists Sample.env (Sample.world None [])).
  reflexivity.
Defined.

Lemma application_remove_waits_witness :
  fst (application_remove Sample.env [Sample.p1; Sample.p2] 0 0
                          (Sample.world None [])) = Halt Blocked.
Proof.
  apply (application_remove_waits Sample.env [Sample.p1; Sample.p2] 0 0
                                  (Sample.world None [])).
  reflexivity.
Defined.

Lemma application_writes_valid_index_witness :
  let w := Sample.world (Some (Sample.dumps (store_to_py [Sample.p1; Sample.p2] 1)))
                        [ord "c"; 32; ord "q"] in
  exists evs : list event,
    trace (snd (application Sample.env false "build.tar" w))
    = (trace (emits_in [CursesRaw; CursSet 0; ScrClear] w) ++ evs)%list /\
    Forall (persists_ok Sample.env) evs.
Proof.
  intros w.
  apply (application_writes_valid_index Sample.env "build.tar" w
           (emits_in [CursesRaw; CursSet 0; ScrClear] w)
           [Sample.p1; Sample.p2] 1);
    [vm_compute; reflexivity | vm_compute; split; discriminate].
Defined.

Lemma main_exit_status_witness :
  let w := Sample.world (Some "[]") [] in
  main Sample.env exn_str false "build.tar" w
  = (Raise (SystemExit 1),
     emits_in [CursesEndwin; Print ("Unhandled exception: " ++ exn_str TypeError);
               TracebackPrint; CursesEndwin]
              (emits_in [CursesRaw; CursSet 0; ScrClear] w)).
Proof.
  intros w.
  apply (proj1 (main_exit_status Sample.env exn_str false "build.tar" w
                  (emits_in [CursesRaw; CursSet 0; ScrClear] w)) TypeError);
    reflexivity.
Defined.

Lemma main_interrupt_at_menu_witness :
  let w := Sample.world (Some (Sample.dumps (store_to_py [Sample.p1] 0))) [3] in
  config_file (snd (main Sample.env exn_str false "build.tar" w))
  = config_file (emits_in [CursesRaw; CursSet 0; ScrClear] w).
Proof.
  intros w.
  apply (main_interrupt_at_menu Sample.env exn_str "build.tar" w
           (emits_in [CursesRaw; CursSet 0; ScrClear] w) [Sample.p1] 0 []);
    [vm_compute; reflexivity | reflexivity].
Defined.
